(** * Lempel-Ziv complexity of NeuroKit (complexity_lempelziv.py)

    A shallow embedding of [neurokit2/complexity/complexity_lempelziv.py]:
    the binarizer, the LZ76 scan of Kaspar and Schuster, the normalizer and
    the multichannel wrapper, followed by the properties of the
    specification that can be stated on them.

    Python integers are [Z]; numpy arrays are lists, indexed the way numpy
    does it (negative indices wrap once, anything else out of range is an
    [IndexError]); exceptions are the [Raise] outcome of a small error
    monad; IEEE doubles are Rocq's primitive floats.  What numpy computes
    on the samples ([np.median], [np.mean]) and [np.log2] are parameters
    of the development, with an instance over exact rationals for the
    scenarios on small integers and an instance over doubles; [np.mean]
    of the per-channel results is numpy's sum of doubles divided by their
    number. *)

From Stdlib Require Import ZArith Lia QArith Qcanon Floats.
From stdpp Require Import base list strings.

Open Scope Z_scope.

(** ** Outcomes of a Python computation *)

Inductive exn := IndexError | TypeError | ValueError | KeyError.

(** [OutOfFuel] is not a Python outcome: it is what the bounded unfolding
    of a [while] loop answers when its budget is too small. *)
Inductive outcome (A : Type) : Type :=
| Return (a : A)
| Raise (e : exn)
| OutOfFuel.

Arguments Return {A} a.
Arguments Raise {A} e.
Arguments OutOfFuel {A}.

#[global] Instance outcome_ret : MRet outcome := @Return.

#[global] Instance outcome_bind : MBind outcome := λ A B f m,
  match m with
  | Return a => f a
  | Raise e => Raise e
  | OutOfFuel => OutOfFuel
  end.

(** [while cond: body], unfolded at most [fuel] times. *)
Fixpoint while_loop {S : Type} (cond : S → bool) (body : S → outcome S)
    (fuel : nat) (s : S) : outcome S :=
  match fuel with
  | O => OutOfFuel
  | Datatypes.S fuel' =>
      if cond s then s' ← body s; while_loop cond body fuel' s'
      else Return s
  end.

(** [for x in items: body], threading the loop's variables. *)
Fixpoint for_loop {A S : Type} (body : S → A → outcome S)
    (items : list A) (s : S) : outcome S :=
  match items with
  | [] => Return s
  | x :: rest => s' ← body s x; for_loop body rest s'
  end.

(** [enumerate(items)] *)
Definition enumerate {A : Type} (items : list A) : list (nat * A) :=
  imap (λ i x, (i, x)) items.

(** [a[i]] on a one-dimensional numpy array of length [n]: indices
    [0 .. n-1] read the cell, [-n .. -1] count from the end, every other
    index raises. *)
Definition np_getitem (a : list Z) (i : Z) : outcome Z :=
  let n := Z.of_nat (length a) in
  let j := if i <? 0 then i + n else i in
  if (0 <=? j) && (j <? n) then
    match a !! Z.to_nat j with
    | Some x => Return x
    | None => Raise IndexError
    end
  else Raise IndexError.

(** ** The scan (lines 96-121 of the source) *)

Record ScanState := mkScan {
  complexity : Z;
  pointer : Z;
  current_prefix_len : Z;
  current_substring_len : Z;
  final_substring_len : Z
}.

(** The pre-set variables. *)
Definition scan_init : ScanState :=
  {| complexity := 1; pointer := 0; current_prefix_len := 1;
     current_substring_len := 1; final_substring_len := 1 |}.

(** [current_prefix_len + current_substring_len <= n] *)
Definition scan_cond (n : Z) (st : ScanState) : bool :=
  current_prefix_len st + current_substring_len st <=? n.

(** One pass through the body of the [while]. *)
Definition scan_body (p_seq : list Z) (st : ScanState) : outcome ScanState :=
  a ← np_getitem p_seq (pointer st + current_substring_len st - 1);
  b ← np_getitem p_seq (current_prefix_len st + current_substring_len st - 1);
  if a =? b then
    Return {| complexity := complexity st;
              pointer := pointer st;
              current_prefix_len := current_prefix_len st;
              current_substring_len := current_substring_len st + 1;
              final_substring_len := final_substring_len st |}
  else
    let final_substring_len' :=
      Z.max (current_substring_len st) (final_substring_len st) in
    let pointer' := pointer st + 1 in
    if pointer' =? current_prefix_len st then
      Return {| complexity := complexity st + 1;
                pointer := 0;
                current_prefix_len := current_prefix_len st + final_substring_len';
                current_substring_len := 1;
                final_substring_len := 1 |}
    else
      Return {| complexity := complexity st;
                pointer := pointer';
                current_prefix_len := current_prefix_len st;
                current_substring_len := 1;
                final_substring_len := final_substring_len' |}.

(** [if current_substring_len != 1: complexity += 1] *)
Definition scan_finish (st : ScanState) : Z :=
  if current_substring_len st =? 1 then complexity st else complexity st + 1.

(** The scan with an explicit budget for the loop. *)
Definition lz_scan_fuel (fuel : nat) (p_seq : list Z) : outcome Z :=
  let n := Z.of_nat (length p_seq) in
  st ← while_loop (scan_cond n) (scan_body p_seq) fuel scan_init;
  Return (scan_finish st).

(** A variant of the loop: it is positive while the loop condition holds
    and drops at every pass (lemma [scan_body_progress]). *)
Definition scan_measure (n : Z) (st : ScanState) : Z :=
  (n - current_prefix_len st) * ((n + 1) * (n + 1))
  + (current_prefix_len st - pointer st) * (n + 1)
  + (n + 1 - current_prefix_len st - current_substring_len st).

(** The budget the scan is run with; theorem [scan_total] shows that it is
    never used up, and that a larger one changes nothing. *)
Definition scan_budget (p_seq : list Z) : nat :=
  Datatypes.S (Z.to_nat (scan_measure (Z.of_nat (length p_seq)) scan_init)).

Definition lz_scan (p_seq : list Z) : outcome Z :=
  lz_scan_fuel (scan_budget p_seq) p_seq.

(** ** The scan as the specification words it

    Section 4.2 of the specification, transcribed on its own terms: a
    state of five integers, a partial read [BinarySequence[i]] that is
    defined on [0 .. n-1] only, and one rule per case of the loop. *)

Record SpecState := mkSpec {
  spec_complexity : Z;
  spec_pointer : Z;
  prefixLength : Z;
  substringLength : Z;
  finalSubstringLength : Z
}.

Definition spec_init : SpecState :=
  {| spec_complexity := 1; spec_pointer := 0; prefixLength := 1;
     substringLength := 1; finalSubstringLength := 1 |}.

Definition spec_read (BinarySequence : list Z) (i : Z) (x : Z) : Prop :=
  0 <= i ∧ BinarySequence !! Z.to_nat i = Some x.

Inductive spec_step (BinarySequence : list Z) : SpecState → SpecState → Prop :=
| spec_extend c p pl sl fl x :
    spec_read BinarySequence (p + sl - 1) x →
    spec_read BinarySequence (pl + sl - 1) x →
    spec_step BinarySequence (mkSpec c p pl sl fl) (mkSpec c p pl (sl + 1) fl)
| spec_new_pattern c p pl sl fl x y :
    spec_read BinarySequence (p + sl - 1) x →
    spec_read BinarySequence (pl + sl - 1) y →
    x ≠ y →
    p + 1 = pl →
    spec_step BinarySequence (mkSpec c p pl sl fl)
      (mkSpec (c + 1) 0 (pl + Z.max sl fl) 1 1)
| spec_retry c p pl sl fl x y :
    spec_read BinarySequence (p + sl - 1) x →
    spec_read BinarySequence (pl + sl - 1) y →
    x ≠ y →
    p + 1 ≠ pl →
    spec_step BinarySequence (mkSpec c p pl sl fl)
      (mkSpec c (p + 1) pl 1 (Z.max sl fl)).

(** "Loop while [prefixLength + substringLength <= n]". *)
Inductive spec_loop (BinarySequence : list Z) : SpecState → SpecState → Prop :=
| spec_loop_exit st :
    ¬ (prefixLength st + substringLength st <= Z.of_nat (length BinarySequence)) →
    spec_loop BinarySequence st st
| spec_loop_pass st st' st'' :
    prefixLength st + substringLength st <= Z.of_nat (length BinarySequence) →
    spec_step BinarySequence st st' →
    spec_loop BinarySequence st' st'' →
    spec_loop BinarySequence st st''.

(** "After the loop: if [substringLength != 1], increment [complexity]
    once more.  Return [complexity]." *)
Definition spec_scan (BinarySequence : list Z) (result : Z) : Prop :=
  ∃ st, spec_loop BinarySequence spec_init st ∧
    ((substringLength st ≠ 1 ∧ result = spec_complexity st + 1) ∨
     (substringLength st = 1 ∧ result = spec_complexity st)).

(** The two state records side by side. *)
Definition to_spec (st : ScanState) : SpecState :=
  {| spec_complexity := complexity st; spec_pointer := pointer st;
     prefixLength := current_prefix_len st;
     substringLength := current_substring_len st;
     finalSubstringLength := final_substring_len st |}.

(** States at which the loop condition is evaluated during the scan of
    [p_seq]: the initial one, and each one a pass of the body produces
    from a state that satisfied the condition. *)
Inductive loop_head (p_seq : list Z) : ScanState → Prop :=
| head_init : loop_head p_seq scan_init
| head_pass st st' :
    loop_head p_seq st →
    scan_cond (Z.of_nat (length p_seq)) st = true →
    scan_body p_seq st = Return st' →
    loop_head p_seq st'.

(** ** Values and the numpy interface *)

(** What [_complexity_lempelziv] returns: the integer count, or the
    normalized double. *)
Inductive pyval :=
| PyInt (z : Z)
| PyFloat (f : float).

(** A Python integer as a double; meant for lengths and counts, that is
    for [0 <= z < 2^63], and exact below [2^53]. *)
Definition float_of_Z (z : Z) : float := PrimFloat.of_uint63 (Uint63.of_Z z).

(** *** Sums and means of doubles, as numpy computes them

    [np.add.reduce] on a contiguous array of doubles starts from the
    identity 0 and adds the pairwise sum of the array: below 8 elements
    a plain loop from left to right; up to 128 elements eight running
    sums over the blocks of eight, combined as a tree, then the remaining
    elements one by one; above, the array is cut near the middle, at a
    multiple of eight, and the sums of the two parts are added.  (The
    sign of a zero result is not followed.) *)

(** [for (...) res += a[i]] *)
Definition sum_from (res : float) (a : list float) : float :=
  foldl PrimFloat.add res a.

(** [r[j] += a[i + j]] for the next [blocks] blocks of eight. *)
Fixpoint add_blocks (r a : list float) (blocks : nat) : list float :=
  match blocks with
  | O => r
  | Datatypes.S blocks' =>
      add_blocks (zip_with PrimFloat.add r (take 8 a)) (drop 8 a) blocks'
  end.

(** The case [8 <= n <= 128] of the pairwise sum. *)
Definition block_sum (a : list float) : float :=
  let blocks := (length a / 8)%nat in
  let r := add_blocks (take 8 a) (drop 8 a) (blocks - 1) in
  let res :=
    match r with
    | [r0; r1; r2; r3; r4; r5; r6; r7] =>
        PrimFloat.add
          (PrimFloat.add (PrimFloat.add r0 r1) (PrimFloat.add r2 r3))
          (PrimFloat.add (PrimFloat.add r4 r5) (PrimFloat.add r6 r7))
    | _ => 0%float
    end in
  sum_from res (drop (8 * blocks) a).

(** The pairwise sum; [depth] bounds the number of cuts, and the length
    of the array is always enough. *)
Fixpoint pairwise_sum (depth : nat) (a : list float) : float :=
  let n := length a in
  if (n <? 8)%nat then sum_from 0%float a
  else if (n <=? 128)%nat then block_sum a
  else
    match depth with
    | O => block_sum a
    | Datatypes.S depth' =>
        let n2 := (n / 2 - (n / 2) mod 8)%nat in
        PrimFloat.add (pairwise_sum depth' (take n2 a))
                      (pairwise_sum depth' (drop n2 a))
    end.

(** [np.sum] of a one-dimensional array of doubles. *)
Definition np_sum (a : list float) : float :=
  PrimFloat.add 0%float (pairwise_sum (length a) a).

(** [np.mean] of a one-dimensional array of doubles: the sum, divided by
    the number of elements (an empty array gives [0 / 0], not a number). *)
Definition np_mean_doubles (a : list float) : float :=
  PrimFloat.div (np_sum a) (float_of_Z (Z.of_nat (length a))).

(** A result as a double, the way [np.mean] reads the list of results:
    integers are cast to doubles before they are added. *)
Definition value_as_double (v : pyval) : float :=
  match v with
  | PyInt z => float_of_Z z
  | PyFloat f => f
  end.

(** [np.mean(lzc_values)]. *)
Definition np_mean_results (values : list pyval) : pyval :=
  PyFloat (np_mean_doubles (map value_as_double values)).

(** The samples of a signal and what numpy computes on them. *)
Class NumPy := {
  num : Type;
  (** [x < y] on two numbers *)
  num_lt : num → num → bool;
  (** [np.median], [np.mean] of a one-dimensional array *)
  np_median : list num → num;
  np_mean : list num → num;
  (** the cast of one sample by [astype(int)] *)
  num_astype_int : num → Z
}.

(** The [threshold] argument: a string, or (nothing in the code forbids
    it) a number. *)
Inductive threshold_arg `{NumPy} :=
| ThrStr (s : string)
| ThrNum (x : num).

(** A cell of [p_seq] between [signal.copy()] and [astype(int)]: still the
    copied sample, or the integer stored by the loop. *)
Inductive cell `{NumPy} :=
| Sample (v : num)
| Stored (z : Z).

(** The sanitized multichannel signal: a data frame, its columns in order,
    each under its label. *)
Abbreviation dataframe := (list (string * list num)) (only parsing).

(** What [signal[colname]] selects in a data frame: the column that
    carries the label, or, when several columns carry it, the frame made
    of these columns. *)
Inductive selection `{NumPy} :=
| Column (samples : list num)
| SubFrame (columns : list (list num)).

Section Pipeline.
Context `{NumPy}.
(** [np.log2] of a Python integer. *)
Variable np_log2 : Z → float.
(** [np.mean] of the list of per-channel results. *)
Variable np_mean_values : list pyval → pyval.

(** *** Binarizer *)

(** The [if]/[elif] on [threshold]; any other value is left as it is. *)
Definition resolve_threshold (signal : list num) (threshold : threshold_arg)
  : threshold_arg :=
  match threshold with
  | ThrStr s =>
      if String.eqb s "median" then ThrNum (np_median signal)
      else if String.eqb s "mean" then ThrNum (np_mean signal)
      else threshold
  | ThrNum _ => threshold
  end.

(** [value < threshold]; a number does not compare with a string. *)
Definition py_lt (value : num) (threshold : threshold_arg) : outcome bool :=
  match threshold with
  | ThrNum t => Return (num_lt value t)
  | ThrStr _ => Raise TypeError
  end.

Definition binarize_body (threshold : threshold_arg) (p_seq : list cell)
    (item : nat * num) : outcome (list cell) :=
  let '(index, value) := item in
  below ← py_lt value threshold;
  if below : bool then Return (<[index := Stored 0]> p_seq)
  else Return (<[index := Stored 1]> p_seq).

Definition astype_int (c : cell) : Z :=
  match c with
  | Sample v => num_astype_int v
  | Stored z => z
  end.

Definition _complexity_lempelziv_binarize (signal : list num)
    (threshold : threshold_arg) : outcome (list Z) :=
  let threshold := resolve_threshold signal threshold in
  let p_seq := map Sample signal in
  p_seq ← for_loop (binarize_body threshold) (enumerate signal) p_seq;
  Return (map astype_int p_seq).

(** *** Normalizer *)

Definition _complexity_lempelziv_normalize (sequence : list Z)
    (complexity : Z) : float :=
  let n := Z.of_nat (length sequence) in
  let upper_bound := PrimFloat.div (float_of_Z n) (np_log2 n) in
  PrimFloat.div (float_of_Z complexity) upper_bound.

(** *** One sequence *)

Definition _complexity_lempelziv (signal : list num)
    (threshold : threshold_arg) (normalize : bool) : outcome pyval :=
  p_seq ← _complexity_lempelziv_binarize signal threshold;
  complexity ← lz_scan p_seq;
  if normalize then
    Return (PyFloat (_complexity_lempelziv_normalize p_seq complexity))
  else Return (PyInt complexity).

(** The result of the single-sequence path on one column. *)
Definition channel_result (threshold : threshold_arg) (normalize : bool)
    (col : string * list num) (lzc : pyval) : Prop :=
  _complexity_lempelziv col.2 threshold normalize = Return lzc.

(** *** Several channels *)

(** [signal[colname]]: the column under that label, the sub-frame of the
    columns under it when there are several, a [KeyError] when there is
    none. *)
Definition df_getitem (signal : dataframe) (colname : string)
  : outcome selection :=
  match filter (λ col, col.1 = colname) signal with
  | [] => Raise KeyError
  | [col] => Return (Column col.2)
  | cols => Return (SubFrame (map snd cols))
  end.

(** [_complexity_lempelziv] on [np.array] of a sub-frame, which is a
    two-dimensional array of at least two columns (the columns of a frame
    have one length, the number of its rows).  [enumerate(signal)] then
    goes through the rows: [value < threshold] is an array of as many
    booleans as there are columns, or a [TypeError] against a string, and
    [if] on an array of several booleans raises [ValueError].  Without
    rows there is no comparison, [p_seq] is empty, [len(p_seq)] is 0, and
    the rest goes as on an empty one-dimensional signal.  (The threshold
    is computed on all the cells of the array; only its being a number
    matters here.) *)
Definition _complexity_lempelziv_subframe (columns : list (list num))
    (threshold : threshold_arg) (normalize : bool) : outcome pyval :=
  match length (hd [] columns) with
  | O => _complexity_lempelziv [] threshold normalize
  | Datatypes.S _ =>
      match resolve_threshold (concat columns) threshold with
      | ThrNum _ => Raise ValueError
      | ThrStr _ => Raise TypeError
      end
  end.

Record parameters := mkParameters {
  param_threshold : threshold_arg;
  param_normalize : bool;
  param_values : option (list pyval)
}.

(** The [signal] argument: one-dimensional, or of more dimensions. *)
Inductive signal_arg (ndsignal : Type) :=
| OneDim (samples : list num)
| MultiDim (raw : ndsignal).
#[local] Arguments OneDim {ndsignal} samples.
#[local] Arguments MultiDim {ndsignal} raw.

Section Wrapper.
Context {ndsignal : Type}.
(** [utils._sanitize_multichannel], whose source is not part of the
    module: it turns the input into a data frame, or raises. *)
Variable _sanitize_multichannel : ndsignal → outcome dataframe.

Definition channel_body (signal : dataframe) (threshold : threshold_arg)
    (normalize : bool) (lzc_values : list pyval) (colname : string)
  : outcome (list pyval) :=
  channel ← df_getitem signal colname;
  lzc ← match channel with
        | Column samples => _complexity_lempelziv samples threshold normalize
        | SubFrame columns =>
            _complexity_lempelziv_subframe columns threshold normalize
        end;
  Return (lzc_values ++ [lzc]).

Definition complexity_lempelziv (signal : signal_arg ndsignal)
    (threshold : threshold_arg) (normalize : bool)
  : outcome (pyval * parameters) :=
  match signal with
  | MultiDim raw =>
      signal ← _sanitize_multichannel raw;
      lzc_values ← for_loop (channel_body signal threshold normalize)
                     (map fst signal) [];
      Return (np_mean_values lzc_values,
              mkParameters threshold normalize (Some lzc_values))
  | OneDim samples =>
      out ← _complexity_lempelziv samples threshold normalize;
      Return (out, mkParameters threshold normalize None)
  end.

End Wrapper.
End Pipeline.

Arguments OneDim {_ ndsignal} samples.
Arguments MultiDim {_ ndsignal} raw.

(** ** Exact arithmetic

    The instance of the numpy interface in which samples are rationals and
    [np.median], [np.mean] are computed without rounding.  It is what
    numpy computes wherever the double arithmetic is exact, as on the
    short signals of small integers used in the scenarios below; on
    doubles in general numpy rounds, and the instance [Doubles] further
    down follows it there.  On an empty array numpy answers [nan] (with a
    warning); the value chosen here for that case is never compared with
    anything, there being no sample. *)

Module Exact.

Definition Qc_of_Z (z : Z) : Qc := Q2Qc (inject_Z z).

Definition Qc_ltb (x y : Qc) : bool :=
  match (x ?= y)%Qc with
  | Lt => true
  | _ => false
  end.

Fixpoint insert_sorted (x : Qc) (l : list Qc) : list Qc :=
  match l with
  | [] => [x]
  | y :: l' => if Qc_ltb y x then y :: insert_sorted x l' else x :: l
  end.

Definition sort (l : list Qc) : list Qc := foldr insert_sorted [] l.

Definition sum (l : list Qc) : Qc := foldr Qcplus (Qc_of_Z 0) l.

(** The middle element of the sorted array, or the mean of the two middle
    ones when the length is even. *)
Definition median (l : list Qc) : Qc :=
  let sorted := sort l in
  let n := length l in
  if Nat.even n then
    ((nth (n / 2 - 1)%nat sorted (Qc_of_Z 0) + nth (n / 2)%nat sorted (Qc_of_Z 0))
     / Qc_of_Z 2)%Qc
  else nth (n / 2)%nat sorted (Qc_of_Z 0).

Definition mean (l : list Qc) : Qc :=
  (sum l / Qc_of_Z (Z.of_nat (length l)))%Qc.

(** Truncation toward zero. *)
Definition trunc (x : Qc) : Z := Z.quot (Qnum x) (Z.pos (Qden x)).

#[global] Instance numpy : NumPy :=
  {| num := Qc; num_lt := Qc_ltb; np_median := median; np_mean := mean;
     num_astype_int := trunc |}.

(** A signal of integers. *)
Definition samples (l : list Z) : list Qc := map Qc_of_Z l.

(** The signal [1, 2, 1, 2, 1, 2, 1, 2]. *)
Definition alternating_signal : list Qc := samples [1; 2; 1; 2; 1; 2; 1; 2].

(** Two channels, with distinct labels. *)
Definition two_channels : list (string * list Qc) :=
  [("EEG 001"%string, samples [1; 2; 1; 2]);
   ("EEG 002"%string, samples [1; 1; 1; 5; 0])].


End Exact.

(** ** Double arithmetic

    The numpy interface on arrays of doubles.  [np.mean] is the sum of
    the array, as [np.sum] adds it, divided by its length.  [np.median]
    sorts a copy (numbers by [<], what is not a number last), answers not
    a number when the array holds one, and otherwise takes [np.mean] of
    the middle element, or of the two middle ones when the length is even;
    on an empty array that is [0 / 0].  The cast to [int] truncates toward
    zero. *)

Module Doubles.

Definition is_nan (x : float) : bool := negb (PrimFloat.eqb x x).

Definition sorts_before (x y : float) : bool :=
  PrimFloat.ltb x y || (is_nan y && negb (is_nan x)).

Fixpoint insert_sorted (x : float) (l : list float) : list float :=
  match l with
  | [] => [x]
  | y :: l' => if sorts_before y x then y :: insert_sorted x l' else x :: l
  end.

Definition sort (l : list float) : list float := foldr insert_sorted [] l.

Definition median (a : list float) : float :=
  let part := sort a in
  let sz := length a in
  let index := (sz / 2)%nat in
  let middle :=
    if Nat.odd sz then take 1 (drop index part)
    else take 2 (drop (index - 1) part) in
  let rout := np_mean_doubles middle in
  match last part with
  | Some x => if is_nan x then nan else rout
  | None => rout
  end.

(** [astype(int)] on a double; where the double has no integer part to
    give in 64 bits (too large, infinite, not a number) numpy stores the
    least integer. *)
Definition trunc (x : float) : Z :=
  match Prim2SF x with
  | S754_zero _ => 0
  | S754_finite negative m e =>
      let magnitude :=
        if 0 <=? e then Z.shiftl (Z.pos m) e else Z.shiftr (Z.pos m) (- e) in
      let value := if negative then - magnitude else magnitude in
      if (- 2 ^ 63 <=? value) && (value <? 2 ^ 63) then value else - 2 ^ 63
  | _ => - 2 ^ 63
  end.

Definition numpy : NumPy :=
  {| num := float; num_lt := PrimFloat.ltb; np_median := median;
     np_mean := np_mean_doubles; num_astype_int := trunc |}.

End Doubles.

(** [np.log2] where its value is an integer: [-inf] at [0] and the
    exponent at a power of two.  At other arguments the function below
    answers the exponent of the power of two below, which is not numpy's
    value; it is only ever applied to [0], [1] and powers of two. *)
Definition log2_dyadic (n : Z) : float :=
  if n =? 0 then neg_infinity else float_of_Z (Z.log2 n).

(** What holds of the scan's variables whenever the loop condition is
    evaluated. *)
Definition scan_inv (st : ScanState) : Prop :=
  1 <= complexity st ∧
  0 <= pointer st < current_prefix_len st ∧
  1 <= current_substring_len st ∧
  1 <= final_substring_len st.

(** The bit the binarizer stores for a sample, given the numeric
    threshold. *)
Definition threshold_bit `{NumPy} (t v : num) : Z :=
  if num_lt v t then 0 else 1.

(** What the count will be at least, seen from a state of the loop: the
    patterns counted so far, and one more as soon as a match is under way
    or has been recorded for the current prefix. *)
Definition scan_potential (st : ScanState) : Z :=
  complexity st +
  (if decide (current_substring_len st = 1 ∧ final_substring_len st = 1)
   then 0 else 1).

(** Further relations between the variables at the head of the loop, for a
    sequence of length [n]. *)
Definition scan_range_inv (n : Z) (st : ScanState) : Prop :=
  (final_substring_len st = 1 ∨
   current_prefix_len st + final_substring_len st <= n) ∧
  (complexity st = 1 → current_prefix_len st = 1 ∧ pointer st = 0) ∧
  complexity st <= current_prefix_len st ∧
  (1 <= n →
   current_prefix_len st <= n ∧
   current_prefix_len st + current_substring_len st <= n + 1).

(** The loop of the wrapper, seen from the columns alone. *)
Definition column_body `{NumPy} (np_log2 : Z → float)
    (threshold : threshold_arg) (normalize : bool)
    (lzc_values : list pyval) (channel : list num) : outcome (list pyval) :=
  lzc ← _complexity_lempelziv np_log2 channel threshold normalize;
  Return (lzc_values ++ [lzc]).

(** * Properties *)

(** ** Reading the array *)

Lemma np_getitem_in_range (a : list Z) (i : Z) :
  0 <= i < Z.of_nat (length a) →
  ∃ x, a !! Z.to_nat i = Some x ∧ np_getitem a i = Return x.
Proof.
  intros Hi.
  destruct (lookup_lt_is_Some_2 a (Z.to_nat i)) as [x Hx]; [lia|].
  exists x. split; [done|].
  unfold np_getitem.
  destruct (Z.ltb_spec i 0); [lia|].
  destruct (Z.leb_spec 0 i); [|lia].
  destruct (Z.ltb_spec i (Z.of_nat (length a))); [|lia].
  simpl. by rewrite Hx.
Qed.

Lemma spec_read_fun (bs : list Z) (i x y : Z) :
  spec_read bs i x → spec_read bs i y → x = y.
Proof. intros [_ Hx] [_ Hy]. congruence. Qed.

(** ** One pass of the loop *)

Lemma scan_init_inv : scan_inv scan_init.
Proof. unfold scan_inv, scan_init; simpl. lia. Qed.

(** Under the invariant and the loop condition, the body reads inside the
    array, keeps the invariant, makes the measure drop, never lowers the
    count, and is one step of the specification's scan. *)
Lemma scan_body_progress (p_seq : list Z) (st : ScanState) :
  let n := Z.of_nat (length p_seq) in
  scan_inv st →
  scan_cond n st = true →
  ∃ st', scan_body p_seq st = Return st' ∧
         scan_inv st' ∧
         scan_measure n st' < scan_measure n st ∧
         0 < scan_measure n st ∧
         spec_step p_seq (to_spec st) (to_spec st').
Proof.
  intros n (Hc & Hp & Hs & Hf) Hcond.
  destruct st as [c p pl sl fl]; unfold scan_cond in Hcond; simpl in *.
  apply Z.leb_le in Hcond.
  destruct (np_getitem_in_range p_seq (p + sl - 1)) as (x & Hx & Ex); [lia|].
  destruct (np_getitem_in_range p_seq (pl + sl - 1)) as (y & Hy & Ey); [lia|].
  unfold scan_body; simpl. rewrite Ex; simpl. rewrite Ey; simpl.
  assert (Hrx : spec_read p_seq (p + sl - 1) x) by (split; [lia|done]).
  assert (Hry : spec_read p_seq (pl + sl - 1) y) by (split; [lia|done]).
  fold n in Hcond.
  destruct (Z.eqb_spec x y) as [->|Hxy].
  - eexists; split; [reflexivity|].
    unfold scan_inv, scan_measure, to_spec; simpl.
    repeat split; try lia; try nia.
    by eapply spec_extend.
  - destruct (Z.eqb_spec (p + 1) pl) as [Hreset|Hretry].
    + eexists; split; [reflexivity|].
      unfold scan_inv, scan_measure, to_spec; simpl.
      repeat split; try lia; try nia.
      by eapply spec_new_pattern.
    + eexists; split; [reflexivity|].
      unfold scan_inv, scan_measure, to_spec; simpl.
      repeat split; try lia; try nia.
      by eapply spec_retry.
Qed.

(** ** The loop *)

(** A loop that ends within some budget ends the same way within any
    larger one. *)
Lemma while_loop_more_fuel {S : Type} (cond : S → bool) (body : S → outcome S)
    (fuel extra : nat) (s s' : S) :
  while_loop cond body fuel s = Return s' →
  while_loop cond body (fuel + extra) s = Return s'.
Proof.
  revert s. induction fuel as [|fuel IH]; intros s; simpl; [done|].
  destruct (cond s); [|done].
  destruct (body s) as [s1| |]; simpl; [apply IH|done|done].
Qed.

(** From a state that satisfies the invariant, a budget above the measure
    is enough for the loop to end; it ends without an exception, in a
    state the specification's loop reaches too. *)
Lemma scan_loop_ends (p_seq : list Z) (fuel : nat) (st : ScanState) :
  let n := Z.of_nat (length p_seq) in
  scan_inv st →
  scan_measure n st <= Z.of_nat fuel →
  ∃ st', while_loop (scan_cond n) (scan_body p_seq) (Datatypes.S fuel) st
           = Return st' ∧
         scan_inv st' ∧
         scan_cond n st' = false ∧
         complexity st <= complexity st' ∧
         spec_loop p_seq (to_spec st) (to_spec st') ∧
         (loop_head p_seq st → loop_head p_seq st').
Proof.
  intros n. revert st.
  induction fuel as [|fuel IH]; intros st Hinv Hm.
  - destruct (scan_cond n st) eqn:Hcond.
    + destruct (scan_body_progress p_seq st Hinv Hcond) as (? & _ & _ & _ & ? & _).
      fold n in H. lia.
    + exists st. simpl. rewrite Hcond.
      repeat split; try done; try apply Hinv; try lia.
      apply spec_loop_exit. unfold scan_cond in Hcond.
      apply Z.leb_gt in Hcond. destruct st; simpl in *. fold n. lia.
  - destruct (scan_cond n st) eqn:Hcond.
    + destruct (scan_body_progress p_seq st Hinv Hcond)
        as (st1 & Hbody & Hinv1 & Hlt & Hpos & Hstep).
      fold n in Hlt, Hpos.
      destruct (IH st1 Hinv1) as (st' & Hrun & Hinv' & Hexit & Hle & Hspec & Hhead);
        [lia|].
      exists st'.
      split.
      { change (while_loop (scan_cond n) (scan_body p_seq)
                  (Datatypes.S (Datatypes.S fuel)) st)
          with (if scan_cond n st
                then s' ← scan_body p_seq st;
                     while_loop (scan_cond n) (scan_body p_seq) (Datatypes.S fuel) s'
                else Return st).
        rewrite Hcond, Hbody. exact Hrun. }
      repeat split; try done; try apply Hinv'.
      * assert (complexity st <= complexity st1); [|lia].
        inversion Hstep; destruct st, st1; simpl in *; simplify_eq; lia.
      * eapply spec_loop_pass; [|exact Hstep|exact Hspec].
        unfold scan_cond in Hcond. apply Z.leb_le in Hcond.
        destruct st; simpl in *. fold n. lia.
      * intros Hh. apply Hhead. by eapply head_pass.
    + exists st. simpl. rewrite Hcond.
      repeat split; try done; try apply Hinv; try lia.
      apply spec_loop_exit. unfold scan_cond in Hcond.
      apply Z.leb_gt in Hcond. destruct st; simpl in *. fold n. lia.
Qed.

(** The specification's scan is deterministic. *)
Lemma spec_step_fun (bs : list Z) (st st1 st2 : SpecState) :
  spec_step bs st st1 → spec_step bs st st2 → st1 = st2.
Proof.
  intros H1 H2.
  inversion H1; subst; inversion H2; subst; try done;
    repeat match goal with
           | Ha : spec_read bs ?i ?x, Hb : spec_read bs ?i ?y |- _ =>
               first [ constr_eq x y; fail 1
                     | pose proof (spec_read_fun bs i x y Ha Hb); subst ]
           end; try done; try lia.
Qed.

Lemma spec_loop_fun (bs : list Z) (st st1 st2 : SpecState) :
  spec_loop bs st st1 → spec_loop bs st st2 → st1 = st2.
Proof.
  intros H1. revert st2.
  induction H1 as [st Hexit | st st' st'' Hcond Hstep Hloop IH]; intros st2 H2.
  - inversion H2; subst; [done|]. contradiction.
  - inversion H2; subst; [contradiction|].
    apply IH. by rewrite (spec_step_fun bs st st' st'0).
Qed.

(** ** The scan as a whole *)

Lemma loop_head_inv (p_seq : list Z) (st : ScanState) :
  loop_head p_seq st → scan_inv st.
Proof.
  induction 1 as [|st st' _ IH Hcond Hbody]; [apply scan_init_inv|].
  destruct (scan_body_progress p_seq st IH Hcond) as (st1 & Hb & Hinv & _).
  congruence.
Qed.

Lemma scan_loop_result (p_seq : list Z) :
  let n := Z.of_nat (length p_seq) in
  ∃ st, while_loop (scan_cond n) (scan_body p_seq) (scan_budget p_seq) scan_init
          = Return st ∧
        scan_inv st ∧
        scan_cond n st = false ∧
        spec_loop p_seq spec_init (to_spec st) ∧
        loop_head p_seq st.
Proof.
  intros n. unfold scan_budget.
  destruct (scan_loop_ends p_seq
              (Z.to_nat (scan_measure (Z.of_nat (length p_seq)) scan_init))
              scan_init scan_init_inv)
    as (st & Hrun & Hinv & Hexit & _ & Hspec & Hhead); [lia|].
  exists st. repeat split; try done; try apply Hinv.
  apply Hhead, head_init.
Qed.

Lemma scan_finish_spec (st : ScanState) :
  (substringLength (to_spec st) ≠ 1 ∧
   scan_finish st = spec_complexity (to_spec st) + 1) ∨
  (substringLength (to_spec st) = 1 ∧
   scan_finish st = spec_complexity (to_spec st)).
Proof.
  unfold scan_finish; destruct st as [c p pl sl fl]; simpl.
  destruct (Z.eqb_spec sl 1); [right|left]; done.
Qed.

(** What one pass does to the variables, from a state at the head of the
    loop: it extends the match, or moves the pointer by one inside the
    prefix, or moves the prefix boundary forward and resets the pointer. *)
Lemma scan_pass_cases (p_seq : list Z) (st st' : ScanState) :
  loop_head p_seq st →
  scan_cond (Z.of_nat (length p_seq)) st = true →
  scan_body p_seq st = Return st' →
  scan_measure (Z.of_nat (length p_seq)) st'
    < scan_measure (Z.of_nat (length p_seq)) st ∧
  ((current_prefix_len st' = current_prefix_len st ∧
    pointer st' = pointer st ∧
    current_substring_len st' = current_substring_len st + 1) ∨
   (current_prefix_len st' = current_prefix_len st ∧
    pointer st' = pointer st + 1 ∧ pointer st' < current_prefix_len st) ∨
   (current_prefix_len st < current_prefix_len st' ∧ pointer st' = 0)).
Proof.
  intros Hhead Hcond Hbody.
  pose proof (loop_head_inv p_seq st Hhead) as Hinv.
  destruct (scan_body_progress p_seq st Hinv Hcond)
    as (st1 & Hb & Hinv1 & Hlt & _ & Hstep).
  assert (st1 = st') as -> by congruence.
  split; [exact Hlt|].
  destruct Hinv as (_ & Hp & Hs & Hf).
  destruct st as [c p pl sl fl], st' as [c' p' pl' sl' fl'].
  inversion Hstep; subst; simpl in *; lia.
Qed.

(** C10.  The loop of the scan ends on every sequence, of any length: the
    budget [scan_budget] is enough, no read leaves the array, and a larger
    budget gives the same count, so that the scan is a total function.
    Every pass makes [scan_measure] drop: it extends the match, or moves
    the pointer toward the prefix boundary, or moves that boundary
    forward. *)
Theorem scan_total (p_seq : list Z) :
  (∃ c, lz_scan p_seq = Return c ∧
        ∀ extra, lz_scan_fuel (scan_budget p_seq + extra) p_seq = Return c) ∧
  (∀ st st',
     loop_head p_seq st →
     scan_cond (Z.of_nat (length p_seq)) st = true →
     scan_body p_seq st = Return st' →
     scan_measure (Z.of_nat (length p_seq)) st'
       < scan_measure (Z.of_nat (length p_seq)) st).
Proof.
  split.
  - destruct (scan_loop_result p_seq) as (st & Hrun & _).
    exists (scan_finish st). split.
    + unfold lz_scan, lz_scan_fuel. by rewrite Hrun.
    + intros extra. unfold lz_scan_fuel.
      by rewrite (while_loop_more_fuel _ _ _ extra _ _ Hrun).
  - intros st st' Hhead Hcond Hbody.
    by destruct (scan_pass_cases p_seq st st' Hhead Hcond Hbody).
Qed.

(** The scan of the code returns a result of the specification's scan. *)
Lemma lz_scan_spec_result (p_seq : list Z) :
  ∃ c, lz_scan p_seq = Return c ∧ spec_scan p_seq c ∧ 1 <= c.
Proof.
  destruct (scan_loop_result p_seq) as (st & Hrun & Hinv & _ & Hspec & _).
  exists (scan_finish st). repeat split.
  - unfold lz_scan, lz_scan_fuel. by rewrite Hrun.
  - exists (to_spec st). split; [done|apply scan_finish_spec].
  - destruct Hinv as (Hc & _). unfold scan_finish.
    destruct (current_substring_len st =? 1); lia.
Qed.

Lemma spec_scan_fun (bs : list Z) (c c' : Z) :
  spec_scan bs c → spec_scan bs c' → c = c'.
Proof.
  intros (st & Hloop & Hc) (st' & Hloop' & Hc').
  rewrite <- (spec_loop_fun bs spec_init st st' Hloop Hloop') in Hc'.
  destruct Hc as [[? ->]|[? ->]], Hc' as [[? ->]|[? ->]]; done.
Qed.

Lemma lz_scan_of_spec (p_seq : list Z) (c : Z) :
  spec_scan p_seq c → lz_scan p_seq = Return c.
Proof.
  intros Hc. destruct (lz_scan_spec_result p_seq) as (c0 & Hrun & Hc0 & _).
  by rewrite (spec_scan_fun p_seq c c0 Hc Hc0).
Qed.

(** The sequence of Kaspar and Schuster's paper, 0001101001000101, has
    the six patterns 0, 001, 10, 100, 1000, 101. *)
Example lz_scan_kaspar_schuster :
  lz_scan [0; 0; 0; 1; 1; 0; 1; 0; 0; 1; 0; 0; 0; 1; 0; 1] = Return 6.
Proof. vm_compute. reflexivity. Qed.

Example lz_scan_alternating : lz_scan [0; 1; 0; 1; 0; 1; 0; 1] = Return 3.
Proof. vm_compute. reflexivity. Qed.

(** C1.  On every sequence the scan of the code returns what the scan of
    section 4.2 of the specification returns, that result is the only one
    the specification allows, and it is at least 1. *)
Theorem scan_refines_spec (p_seq : list Z) :
  ∃ c, lz_scan p_seq = Return c ∧
       spec_scan p_seq c ∧
       (∀ c', spec_scan p_seq c' → c' = c) ∧
       1 <= c.
Proof.
  destruct (lz_scan_spec_result p_seq) as (c & Hrun & Hspec & Hpos).
  exists c. repeat split; try done.
  intros c' Hc'. by apply (spec_scan_fun p_seq).
Qed.

(** C7.  At every evaluation of the loop condition the pointer is inside
    the prefix: [0 <= pointer < current_prefix_len]. *)
Theorem pointer_below_prefix (p_seq : list Z) (st : ScanState) :
  loop_head p_seq st → 0 <= pointer st < current_prefix_len st.
Proof. intros Hh. by destruct (loop_head_inv p_seq st Hh) as (_ & ? & _). Qed.

Lemma pointer_below_prefix_witness :
  loop_head [0; 1; 0; 0] (mkScan 2 1 2 1 2) ∧
  0 <= pointer (mkScan 2 1 2 1 2) < current_prefix_len (mkScan 2 1 2 1 2).
Proof.
  assert (H : loop_head [0; 1; 0; 0] (mkScan 2 1 2 1 2)).
  { apply (head_pass _ (mkScan 2 0 2 2 1)); [|reflexivity|reflexivity].
    apply (head_pass _ (mkScan 2 0 2 1 1)); [|reflexivity|reflexivity].
    apply (head_pass _ scan_init); [|reflexivity|reflexivity].
    apply head_init. }
  split; [exact H|exact (pointer_below_prefix _ _ H)].
Defined.

(** C5 as stated fails: the scan of the empty sequence raises nothing. *)
Lemma empty_scan_raises_nothing : ¬ ∃ e, lz_scan [] = Raise e.
Proof. intros [e He]. vm_compute in He. discriminate. Qed.

(** ** The binarizer *)

Section BinarizerFacts.
Context `{NumPy}.

Lemma enumerate_cons {A : Type} (k : nat) (x : A) (l : list A) :
  imap (λ i y, ((k + i)%nat, y)) (x :: l)
  = (k, x) :: imap (λ i y, ((Datatypes.S k + i)%nat, y)) l.
Proof.
  rewrite imap_cons. f_equal; [by rewrite Nat.add_0_r|].
  apply imap_ext; intros i y _; simpl. f_equal. lia.
Qed.

(** The loop of the binarizer, started at index [k] on an array whose
    first [k] cells are done: it overwrites every remaining cell with the
    bit of the sample it held. *)
Lemma binarize_loop_numeric (t : num) (l : list num) :
  ∀ (k : nat) (done_cells : list cell),
    length done_cells = k →
    for_loop (binarize_body (ThrNum t)) (imap (λ i y, ((k + i)%nat, y)) l)
      (done_cells ++ map Sample l)
    = Return (done_cells ++ map (λ v, Stored (threshold_bit t v)) l).
Proof.
  induction l as [|v l IH]; intros k done_cells Hk; [done|].
  rewrite enumerate_cons. cbn [for_loop map].
  assert (Hins : ∀ c, <[k := c]> (done_cells ++ Sample v :: map Sample l)
                      = (done_cells ++ [c]) ++ map Sample l).
  { intros c. rewrite insert_app_r_alt by lia.
    replace (k - length done_cells)%nat with 0%nat by lia.
    simpl. by rewrite <- app_assoc. }
  unfold binarize_body at 1; simpl. unfold threshold_bit at 1.
  destruct (num_lt v t); simpl; rewrite Hins, (IH (Datatypes.S k));
    rewrite ?length_app; simpl; try lia; by rewrite <- app_assoc.
Qed.

(** With a numeric threshold the binarizer never raises and maps every
    sample to its bit, in place; the cast to [int] meets integers only. *)
Lemma binarize_numeric (signal : list num) (threshold : threshold_arg) (t : num) :
  resolve_threshold signal threshold = ThrNum t →
  _complexity_lempelziv_binarize signal threshold
  = Return (map (threshold_bit t) signal).
Proof.
  intros Ht. unfold _complexity_lempelziv_binarize, enumerate. rewrite Ht.
  pose proof (binarize_loop_numeric t signal 0 [] eq_refl) as Hloop.
  simpl in Hloop. rewrite Hloop. simpl.
  by rewrite map_map.
Qed.

Lemma resolve_median (signal : list num) :
  resolve_threshold signal (ThrStr "median") = ThrNum (np_median signal).
Proof. reflexivity. Qed.

Lemma resolve_mean (signal : list num) :
  resolve_threshold signal (ThrStr "mean") = ThrNum (np_mean signal).
Proof. reflexivity. Qed.

Lemma resolve_other (signal : list num) (s : string) :
  s ≠ "median"%string → s ≠ "mean"%string →
  resolve_threshold signal (ThrStr s) = ThrStr s.
Proof.
  intros Hmedian Hmean. unfold resolve_threshold.
  destruct (String.eqb_spec s "median"); [done|].
  destruct (String.eqb_spec s "mean"); done.
Qed.

(** With a string left unresolved, the first comparison raises. *)
Lemma binarize_unresolved (signal : list num) (s : string) :
  s ≠ "median"%string → s ≠ "mean"%string →
  _complexity_lempelziv_binarize signal (ThrStr s)
  = match signal with
    | [] => Return []
    | _ :: _ => Raise TypeError
    end.
Proof.
  intros Hmedian Hmean. unfold _complexity_lempelziv_binarize.
  rewrite resolve_other by done.
  destruct signal as [|v rest]; reflexivity.
Qed.

End BinarizerFacts.

(** ** Constant sequences under the scan *)

(** On a constant sequence every comparison succeeds: the specification's
    loop only extends the match, up to the length of the sequence. *)
Lemma spec_loop_constant (b : Z) (n : nat) (gap : nat) (sl : Z) :
  1 <= sl →
  sl + Z.of_nat gap = Z.of_nat n →
  spec_loop (replicate n b) (mkSpec 1 0 1 sl 1) (mkSpec 1 0 1 (Z.of_nat n) 1).
Proof.
  revert sl. induction gap as [|gap IH]; intros sl Hsl Hn.
  - replace sl with (Z.of_nat n) by lia.
    apply spec_loop_exit. simpl. rewrite length_replicate. lia.
  - assert (Hread : ∀ i, 0 <= i < Z.of_nat n → spec_read (replicate n b) i b).
    { intros i Hi. split; [lia|]. apply lookup_replicate_2. lia. }
    eapply spec_loop_pass.
    + simpl. rewrite length_replicate. lia.
    + apply (spec_extend _ _ _ _ _ _ b); apply Hread; lia.
    + apply IH; lia.
Qed.

Lemma spec_scan_constant (b : Z) (n : nat) :
  spec_scan (replicate n b) (if decide (2 ≤ n)%nat then 2 else 1).
Proof.
  destruct (decide (2 ≤ n)%nat) as [Hn|Hn].
  - exists (mkSpec 1 0 1 (Z.of_nat n) 1). split.
    + apply (spec_loop_constant b n (n - 1)); lia.
    + left. simpl. lia.
  - exists spec_init. split.
    + apply spec_loop_exit. simpl. rewrite length_replicate. lia.
    + right. done.
Qed.

(** The count of a constant sequence: one pattern for a single symbol (or
    none), two from length 2 on, the first symbol and the rest. *)
Lemma lz_scan_constant (b : Z) (n : nat) :
  lz_scan (replicate n b) = Return (if decide (2 ≤ n)%nat then 2 else 1).
Proof. apply lz_scan_of_spec, spec_scan_constant. Qed.

(** ** Exact arithmetic: median and mean of a constant signal *)

Module ExactFacts.
Import Exact.

Lemma Qc_ltb_irrefl (x : Qc) : Qc_ltb x x = false.
Proof.
  unfold Qc_ltb. by rewrite (proj1 (Qceq_alt x x) eq_refl).
Qed.

Lemma insert_sorted_replicate (c : Qc) (k : nat) :
  insert_sorted c (replicate k c) = replicate (Datatypes.S k) c.
Proof. destruct k; simpl; [done|]. by rewrite Qc_ltb_irrefl. Qed.

Lemma sort_replicate (c : Qc) (k : nat) :
  sort (replicate k c) = replicate k c.
Proof.
  induction k as [|k IH]; [done|].
  unfold sort in *; simpl. rewrite IH. apply insert_sorted_replicate.
Qed.

Lemma nth_replicate (c d : Qc) (k i : nat) :
  (i < k)%nat → nth i (replicate k c) d = c.
Proof.
  intros Hi. apply nth_lookup_Some. by apply lookup_replicate_2.
Qed.

Lemma Qc_of_Z_add (a b : Z) : Qc_of_Z (a + b) = (Qc_of_Z a + Qc_of_Z b)%Qc.
Proof.
  unfold Qc_of_Z, Qcplus. apply Qc_is_canon. simpl.
  rewrite !Qred_correct, inject_Z_plus. reflexivity.
Qed.

Lemma Qc_of_Z_nonzero (z : Z) : z ≠ 0 → Qc_of_Z z ≠ Qc_of_Z 0.
Proof.
  intros Hz Heq. unfold Qc_of_Z in Heq.
  apply Q2Qc_eq_iff in Heq. unfold Qeq in Heq; simpl in Heq. lia.
Qed.

Lemma sum_replicate (c : Qc) (k : nat) :
  sum (replicate k c) = (Qc_of_Z (Z.of_nat k) * c)%Qc.
Proof.
  induction k as [|k IH].
  - unfold sum; cbn [replicate foldr].
    change (Qc_of_Z (Z.of_nat 0)) with 0%Qc. change (Qc_of_Z 0) with 0%Qc. ring.
  - replace (Z.of_nat (Datatypes.S k)) with (Z.of_nat k + 1) by lia.
    rewrite Qc_of_Z_add. unfold sum in *; cbn [replicate foldr]. rewrite IH.
    change (Qc_of_Z 1) with 1%Qc. ring.
Qed.

Lemma mean_replicate (c : Qc) (k : nat) :
  (1 ≤ k)%nat → mean (replicate k c) = c.
Proof.
  intros Hk. unfold mean. rewrite sum_replicate, length_replicate.
  pose proof (Qc_of_Z_nonzero (Z.of_nat k)) as Hnz.
  change (Qc_of_Z 0) with 0%Qc in Hnz.
  field. apply Hnz. lia.
Qed.

Lemma median_replicate (c : Qc) (k : nat) :
  (1 ≤ k)%nat → median (replicate k c) = c.
Proof.
  intros Hk. unfold median. rewrite sort_replicate, length_replicate.
  assert (k / 2 < k)%nat by (apply Nat.div_lt; lia).
  destruct (Nat.even k).
  - rewrite !nth_replicate by lia.
    change (Qc_of_Z 2) with (1 + 1)%Qc. field. discriminate.
  - by rewrite nth_replicate.
Qed.

End ExactFacts.

(** ** One sequence through the pipeline *)

Section PipelineFacts.
Context `{NumPy}.
Variable np_log2 : Z → float.

Lemma binarize_length (signal : list num) (threshold : threshold_arg)
    (p_seq : list Z) :
  _complexity_lempelziv_binarize signal threshold = Return p_seq →
  length p_seq = length signal.
Proof.
  destruct (resolve_threshold signal threshold) as [s|t] eqn:Hres.
  - unfold _complexity_lempelziv_binarize. rewrite Hres.
    destruct signal as [|v rest]; simpl; [|done].
    intros [= <-]. done.
  - rewrite (binarize_numeric signal threshold t Hres).
    intros [= <-]. by rewrite length_map.
Qed.

(** The count of a signal whose threshold is numeric is the scan of its
    bits. *)
Lemma raw_count_numeric (signal : list num) (threshold : threshold_arg) (t : num) :
  resolve_threshold signal threshold = ThrNum t →
  _complexity_lempelziv np_log2 signal threshold false
  = c ← lz_scan (map (threshold_bit t) signal); Return (PyInt c).
Proof.
  intros Ht. unfold _complexity_lempelziv.
  by rewrite (binarize_numeric signal threshold t Ht).
Qed.

(** A constant signal has a constant sequence of bits, whatever the
    threshold, and so the count of a constant sequence. *)
Lemma constant_bits_count (c : num) (n : nat) (threshold : threshold_arg) (t : num) :
  resolve_threshold (replicate n c) threshold = ThrNum t →
  _complexity_lempelziv_binarize (replicate n c) threshold
    = Return (replicate n (threshold_bit t c)) ∧
  _complexity_lempelziv np_log2 (replicate n c) threshold false
    = Return (PyInt (if decide (2 ≤ n)%nat then 2 else 1)).
Proof.
  intros Ht. split.
  - rewrite (binarize_numeric _ threshold t Ht). by rewrite fmap_replicate.
  - rewrite (raw_count_numeric _ threshold t Ht).
    change (map (threshold_bit t) (replicate n c))
      with (threshold_bit t <$> replicate n c).
    rewrite fmap_replicate, lz_scan_constant. done.
Qed.

(** C4, as the code has it.  A constant signal of length at least 2 is
    binarized to a constant sequence: all 1s when the common value is not
    below the threshold that numpy computed from the signal (a tie gives
    1), all 0s when it is below it; and its count is 2, the first symbol
    and then the rest as one pattern. *)
Theorem constant_signal (c : num) (n : nat) (threshold : threshold_arg)
    (t : num) :
  (2 ≤ n)%nat →
  resolve_threshold (replicate n c) threshold = ThrNum t →
  _complexity_lempelziv_binarize (replicate n c) threshold
    = Return (replicate n (if num_lt c t then 0 else 1)) ∧
  (num_lt c t = false →
   _complexity_lempelziv_binarize (replicate n c) threshold
     = Return (replicate n 1)) ∧
  _complexity_lempelziv np_log2 (replicate n c) threshold false
    = Return (PyInt 2).
Proof.
  intros Hn Ht.
  destruct (constant_bits_count c n threshold t Ht) as [Hbin Hraw].
  unfold threshold_bit in Hbin. split; [exact Hbin|]. split.
  - intros Htie. by rewrite Hbin, Htie.
  - rewrite Hraw. by destruct (decide (2 ≤ n)%nat).
Qed.

(** C5, as the code has it.  On the empty sequence the loop condition
    fails at once, no cell is read, and the scan returns the count 1
    without an exception, whatever the budget; so does the pipeline on a
    signal without samples, whatever the threshold. *)
Theorem scan_empty (threshold : threshold_arg) (fuel : nat) :
  lz_scan [] = Return 1 ∧
  lz_scan_fuel (Datatypes.S fuel) [] = Return 1 ∧
  _complexity_lempelziv np_log2 [] threshold false = Return (PyInt 1).
Proof.
  split; [reflexivity|]. split; reflexivity.
Qed.

(** C3, as the code has it.  Normalizing never raises: whenever the
    pipeline returns the count [c] without normalization, it returns the
    double [c / (n / log2 n)] with it, [n] being the length of the signal.
    For [n = 1], where [log2] is [0], the bound is [+inf] and the result
    is the double [0], not an error. *)
Theorem normalize_returns (signal : list num) (threshold : threshold_arg) (c : Z) :
  _complexity_lempelziv np_log2 signal threshold false = Return (PyInt c) →
  let n := Z.of_nat (length signal) in
  _complexity_lempelziv np_log2 signal threshold true
    = Return (PyFloat (PrimFloat.div (float_of_Z c)
                         (PrimFloat.div (float_of_Z n) (np_log2 n)))) ∧
  (n = 1 → np_log2 1 = 0%float →
   _complexity_lempelziv np_log2 signal threshold true = Return (PyFloat 0%float)).
Proof.
  intros Hraw n. unfold _complexity_lempelziv in *.
  destruct (_complexity_lempelziv_binarize signal threshold) as [p_seq| |] eqn:Hbin;
    simpl in *; try done.
  pose proof (binarize_length _ _ _ Hbin) as Hlen.
  destruct (lz_scan p_seq) as [c'| |] eqn:Hscan; simpl in *; try done.
  injection Hraw as ->.
  unfold _complexity_lempelziv_normalize. rewrite Hlen. fold n.
  split; [done|].
  intros Hn Hlog. rewrite Hn, Hlog.
  destruct p_seq as [|b [|? ?]]; simpl in Hlen; try lia.
  vm_compute in Hscan. injection Hscan as <-. reflexivity.
Qed.

(** C8, as the code has it.  A string other than the two modes is not
    rejected: it stays the threshold, and the first comparison of a sample
    with it raises a [TypeError] from inside the binarizer, which nothing
    catches; on a signal without samples there is no comparison and the
    count 1 is returned. *)
Theorem unknown_mode (signal : list num) (s : string) :
  s ≠ "median"%string → s ≠ "mean"%string →
  _complexity_lempelziv np_log2 signal (ThrStr s) false
    = match signal with
      | [] => Return (PyInt 1)
      | _ :: _ => Raise TypeError
      end ∧
  ∀ normalize : bool,
    signal ≠ [] →
    _complexity_lempelziv np_log2 signal (ThrStr s) normalize = Raise TypeError ∧
    ∀ (np_mean_values : list pyval → pyval) (ndsignal : Type)
      (_sanitize_multichannel : ndsignal → outcome dataframe),
      complexity_lempelziv np_log2 np_mean_values _sanitize_multichannel
        (OneDim signal) (ThrStr s) normalize = Raise TypeError.
Proof.
  intros Hmedian Hmean. unfold complexity_lempelziv, _complexity_lempelziv.
  rewrite (binarize_unresolved signal s Hmedian Hmean).
  destruct signal; repeat split; try done.
Qed.

(** Two thresholds give the same bits exactly when every sample is below
    both or below neither. *)
Lemma threshold_bits_agree (t1 t2 : num) (l : list num) :
  map (threshold_bit t1) l = map (threshold_bit t2) l
  ↔ Forall (λ v, num_lt v t1 = num_lt v t2) l.
Proof.
  induction l as [|v l IH]; simpl.
  - split; [constructor|done].
  - split.
    + intros [= Hv Hl]. constructor; [|by apply IH].
      unfold threshold_bit in Hv. destruct (num_lt v t1), (num_lt v t2); done.
    + intros Hall. inversion Hall as [|? ? Hv Hl]; subst.
      apply IH in Hl. unfold threshold_bit at 1 3. by rewrite Hv, Hl.
Qed.

(** C9, as the code has it.  The modes "mean" and "median" give the same
    binary sequence exactly when every sample is below both thresholds or
    below neither.  This is so whenever the mean equals the median, but not
    only then; and when the two sequences differ, some sample of the
    signal is below one of the thresholds and not below the other. *)
Theorem modes_agree_exactly (signal : list num) :
  (_complexity_lempelziv_binarize signal (ThrStr "mean")
   = _complexity_lempelziv_binarize signal (ThrStr "median")
   ↔ Forall (λ v, num_lt v (np_mean signal) = num_lt v (np_median signal))
       signal) ∧
  (np_mean signal = np_median signal →
   _complexity_lempelziv_binarize signal (ThrStr "mean")
   = _complexity_lempelziv_binarize signal (ThrStr "median")) ∧
  (_complexity_lempelziv_binarize signal (ThrStr "mean")
   ≠ _complexity_lempelziv_binarize signal (ThrStr "median") →
   ∃ v, v ∈ signal ∧
        num_lt v (np_mean signal) ≠ num_lt v (np_median signal)).
Proof.
  rewrite (binarize_numeric signal _ _ (resolve_mean signal)).
  rewrite (binarize_numeric signal _ _ (resolve_median signal)).
  assert (Hiff : Return (map (threshold_bit (np_mean signal)) signal)
                 = Return (map (threshold_bit (np_median signal)) signal)
                 ↔ Forall (λ v, num_lt v (np_mean signal)
                                = num_lt v (np_median signal)) signal).
  { rewrite <- threshold_bits_agree. split; [by intros [= ->]|by intros ->]. }
  split; [exact Hiff|]. split.
  - intros Heq. apply Hiff, Forall_forall. intros v _. by rewrite Heq.
  - intros Hdiff.
    destruct (decide (Exists (λ v, num_lt v (np_mean signal)
                                   ≠ num_lt v (np_median signal)) signal))
      as [Hex|Hnex].
    + apply Exists_exists in Hex as (v & Hv & Hsep). by exists v.
    + exfalso. apply Hdiff, Hiff.
      apply Forall_forall. intros v Hv.
      destruct (decide (num_lt v (np_mean signal) = num_lt v (np_median signal)))
        as [Hsame|Hsep]; [done|].
      exfalso. apply Hnex, Exists_exists. by exists v.
Qed.

(** The two modes agree exactly when no sample separates the two
    thresholds. *)
Lemma binarize_modes_agree_iff (signal : list num) :
  _complexity_lempelziv_binarize signal (ThrStr "mean")
  = _complexity_lempelziv_binarize signal (ThrStr "median")
  ↔ Forall (λ v, num_lt v (np_mean signal) = num_lt v (np_median signal)) signal.
Proof.
  rewrite (binarize_numeric signal _ _ (resolve_mean signal)).
  rewrite (binarize_numeric signal _ _ (resolve_median signal)).
  generalize (np_mean signal) (np_median signal). intros m1 m2.
  induction signal as [|v l IH]; simpl.
  - split; [constructor|done].
  - split.
    + intros [= Hv Hl]. constructor.
      * unfold threshold_bit in Hv.
        destruct (num_lt v m1), (num_lt v m2); done.
      * apply IH. by rewrite Hl.
    + intros Hall. inversion Hall as [|? ? Hv Hl]; subst.
      apply IH in Hl. injection Hl as Hl.
      unfold threshold_bit at 1 3. by rewrite Hv, Hl.
Qed.

End PipelineFacts.

(** ** Several channels *)

Section WrapperFacts.
Context `{NumPy}.
Variable np_log2 : Z → float.
Variable np_mean_values : list pyval → pyval.
Context {ndsignal : Type}.
Variable _sanitize_multichannel : ndsignal → outcome dataframe.

Lemma filter_none {A : Type} (P : A → Prop) `{∀ x, Decision (P x)} (l : list A) :
  Forall (λ x, ¬ P x) l → filter P l = [].
Proof. induction 1; [done|]. by rewrite filter_cons_False. Qed.

(** Under pairwise distinct labels, a label selects its own column. *)
Lemma df_getitem_own_column (signal : dataframe) (col : string * list num) :
  NoDup (map fst signal) →
  col ∈ signal →
  df_getitem signal col.1 = Return (Column col.2).
Proof.
  intros Hnodup Hin. unfold df_getitem.
  assert (Hfilter : filter (λ c : string * list num, c.1 = col.1) signal = [col]);
    [|by rewrite Hfilter].
  induction signal as [|c0 rest IH]; [by apply elem_of_nil in Hin|].
  simpl in Hnodup. apply NoDup_cons in Hnodup as [Hfresh Hnodup].
  apply elem_of_cons in Hin as [->|Hin].
  - rewrite filter_cons_True by done. f_equal.
    apply filter_none, Forall_forall. intros c Hc Heq.
    apply Hfresh. rewrite <- Heq. apply list_elem_of_fmap. by exists c.
  - rewrite filter_cons_False; [by apply IH|].
    intros Heq. apply Hfresh. rewrite Heq.
    apply list_elem_of_fmap. by exists col.
Qed.

Lemma channel_body_own_column (signal : dataframe) (threshold : threshold_arg)
    (normalize : bool) (lzc_values : list pyval) (col : string * list num) :
  NoDup (map fst signal) →
  col ∈ signal →
  channel_body np_log2 signal threshold normalize lzc_values col.1
  = lzc ← _complexity_lempelziv np_log2 col.2 threshold normalize;
    Return (lzc_values ++ [lzc]).
Proof.
  intros Hnodup Hin. unfold channel_body.
  by rewrite (df_getitem_own_column signal col Hnodup Hin).
Qed.




End WrapperFacts.

(** ** The mean over the channels *)

(** Below eight elements [np.sum] adds from left to right. *)
Lemma np_sum_short (a : list float) :
  (length a < 8)%nat →
  np_sum a = PrimFloat.add 0%float (foldl PrimFloat.add 0%float a).
Proof.
  intros Hlen. unfold np_sum. f_equal.
  generalize (length a) at 1. intros depth.
  destruct depth; cbn [pairwise_sum];
    (destruct (Nat.ltb_spec (length a) 8); [done|lia]).
Qed.

Example np_sum_three_tenths :
  np_mean_doubles (replicate 3 0x1.999999999999ap-4%float)
  = 0x1.999999999999bp-4%float.
Proof. vm_compute. reflexivity. Qed.

Example np_sum_ten_tenths :
  np_sum (replicate 10 0x1.999999999999ap-4%float) = 1%float.
Proof. vm_compute. reflexivity. Qed.

Section MeanFacts.
Context `{NumPy}.
Variable np_log2 : Z → float.
Context {ndsignal : Type}.
Variable _sanitize_multichannel : ndsignal → outcome dataframe.


End MeanFacts.

(** ** Scenarios in exact arithmetic *)

Section ExactScenarios.
Import Exact.

(** C2, with the values the code computes.  The signal
    [1,2,1,2,1,2,1,2] under the mode "median" is binarized to
    [0,1,0,1,0,1,0,1]; its count is 3 (the patterns 0, 1 and 010101); with
    [log2 8 = 3] the normalized value is [3 / (8 / 3)], the double 1.125. *)
Theorem alternating_scenario (np_log2 : Z → float) :
  np_log2 8 = 3%float →
  _complexity_lempelziv_binarize alternating_signal (ThrStr "median")
    = Return [0; 1; 0; 1; 0; 1; 0; 1] ∧
  _complexity_lempelziv np_log2 alternating_signal (ThrStr "median") false
    = Return (PyInt 3) ∧
  _complexity_lempelziv np_log2 alternating_signal (ThrStr "median") true
    = Return (PyFloat 1.125%float).
Proof.
  intros Hlog.
  assert (Hbin : _complexity_lempelziv_binarize alternating_signal (ThrStr "median")
                 = Return [0; 1; 0; 1; 0; 1; 0; 1]) by (vm_compute; reflexivity).
  assert (Hscan : lz_scan [0; 1; 0; 1; 0; 1; 0; 1] = Return 3)
    by (vm_compute; reflexivity).
  unfold _complexity_lempelziv. rewrite Hbin. cbn [mbind outcome_bind].
  rewrite Hscan. cbn [mbind outcome_bind].
  repeat split.
  unfold _complexity_lempelziv_normalize.
  change (Z.of_nat (length [0; 1; 0; 1; 0; 1; 0; 1])) with 8.
  rewrite Hlog. reflexivity.
Qed.

Lemma alternating_scenario_witness :
  log2_dyadic 8 = 3%float ∧
  _complexity_lempelziv log2_dyadic alternating_signal (ThrStr "median") true
    = Return (PyFloat 1.125%float).
Proof.
  split; [reflexivity|].
  apply (alternating_scenario log2_dyadic). reflexivity.
Defined.

(** C2 as stated fails: the count of the scenario is 3, not 4. *)
Lemma alternating_count_is_not_4 :
  ∃ c, _complexity_lempelziv log2_dyadic alternating_signal (ThrStr "median") false
         = Return (PyInt c) ∧ c ≠ 4.
Proof. exists 3. split; [vm_compute; reflexivity|lia]. Qed.

(** C3 as stated fails: a signal of one sample, normalized, returns the
    double 0. *)
Lemma length_one_normalized_returns :
  _complexity_lempelziv log2_dyadic (samples [7]) (ThrStr "median") true
  = Return (PyFloat 0%float).
Proof. vm_compute. reflexivity. Qed.

Lemma normalize_returns_witness :
  _complexity_lempelziv log2_dyadic (samples [7]) (ThrStr "mean") false
    = Return (PyInt 1) ∧
  _complexity_lempelziv log2_dyadic (samples [7]) (ThrStr "mean") true
    = Return (PyFloat 0%float).
Proof.
  assert (Hraw : _complexity_lempelziv log2_dyadic (samples [7]) (ThrStr "mean") false
                 = Return (PyInt 1)) by reflexivity.
  split; [exact Hraw|].
  apply (normalize_returns (H := numpy) log2_dyadic (samples [7]) (ThrStr "mean") 1 Hraw);
    reflexivity.
Defined.

(** In exact arithmetic the median and the mean of a constant signal are
    its value, and the tie always happens (in doubles it need not: see
    [constant_signal_refuted]). *)
Lemma exact_constant_signal (np_log2 : Z → float) (c : Qc) (n : nat) (s : string) :
  (2 ≤ n)%nat →
  s = "median"%string ∨ s = "mean"%string →
  _complexity_lempelziv_binarize (replicate n c) (ThrStr s)
    = Return (replicate n 1) ∧
  _complexity_lempelziv np_log2 (replicate n c) (ThrStr s) false
    = Return (PyInt 2).
Proof.
  intros Hn Hs.
  assert (Ht : resolve_threshold (replicate n c) (ThrStr s) = ThrNum c).
  { destruct Hs as [->| ->].
    - rewrite resolve_median. simpl. by rewrite ExactFacts.median_replicate by lia.
    - rewrite resolve_mean. simpl. by rewrite ExactFacts.mean_replicate by lia. }
  destruct (constant_bits_count (H := numpy) np_log2 c n (ThrStr s) c Ht) as [Hbin Hraw].
  split.
  - etransitivity; [exact Hbin|].
    unfold threshold_bit; simpl. by rewrite ExactFacts.Qc_ltb_irrefl.
  - etransitivity; [exact Hraw|].
    by destruct (decide (2 ≤ n)%nat).
Qed.

Lemma constant_signal_witness :
  (2 ≤ 3)%nat ∧
  resolve_threshold (replicate 3 (Qc_of_Z 5)) (ThrStr "mean")
    = ThrNum (Qc_of_Z 5) ∧
  _complexity_lempelziv_binarize (replicate 3 (Qc_of_Z 5)) (ThrStr "mean")
    = Return [1; 1; 1] ∧
  _complexity_lempelziv log2_dyadic (replicate 3 (Qc_of_Z 5)) (ThrStr "mean") false
    = Return (PyInt 2).
Proof.
  assert (Ht : resolve_threshold (replicate 3 (Qc_of_Z 5)) (ThrStr "mean")
               = ThrNum (Qc_of_Z 5)).
  { unfold resolve_threshold. simpl. f_equal. apply Qc_is_canon. reflexivity. }
  split; [lia|]. split; [exact Ht|].
  destruct (constant_signal (H := numpy) log2_dyadic (Qc_of_Z 5) 3
              (ThrStr "mean") (Qc_of_Z 5) ltac:(lia) Ht) as (_ & Htie & Hraw).
  split; [apply Htie; reflexivity|exact Hraw].
Defined.

(** The scenarios on small integers come out the same in doubles. *)
Example scenarios_in_doubles :
  _complexity_lempelziv (H := Doubles.numpy) log2_dyadic
    [1; 2; 1; 2; 1; 2; 1; 2]%float (ThrStr "median") true
    = Return (PyFloat 1.125%float) ∧
  _complexity_lempelziv (H := Doubles.numpy) log2_dyadic
    [5; 5; 5]%float (ThrStr "median") false = Return (PyInt 2) ∧
  _complexity_lempelziv_binarize (H := Doubles.numpy)
    [0; 4; 5]%float (ThrStr "mean") = Return [0; 1; 1] ∧
  _complexity_lempelziv_binarize (H := Doubles.numpy)
    [0; 4; 5]%float (ThrStr "median") = Return [0; 1; 1] ∧
  np_mean (NumPy := Doubles.numpy) [0; 4; 5]%float = 3%float ∧
  np_median (NumPy := Doubles.numpy) [0; 4; 5]%float = 4%float.
Proof. repeat split; vm_compute; reflexivity. Qed.

(** C4 as stated fails, twice.  The count of the constant signal
    [5, 5, 5] is 2, not 1.  And the constant signal made of three times
    the double nearest to 0.1 is binarized, under the mode "mean", to all
    0s: the three doubles add up to 0.30000000000000004, a third of which
    is the next double above the samples. *)
Lemma constant_signal_refuted :
  (∃ c, _complexity_lempelziv log2_dyadic (samples [5; 5; 5]) (ThrStr "median") false
          = Return (PyInt c) ∧ c ≠ 1) ∧
  _complexity_lempelziv_binarize (H := Doubles.numpy)
    (replicate 3 0x1.999999999999ap-4%float) (ThrStr "mean")
  = Return [0; 0; 0].
Proof.
  split.
  - exists 2. split; [vm_compute; reflexivity|lia].
  - vm_compute. reflexivity.
Qed.

(** C8 as stated fails: with no sample to compare, an unknown mode goes
    unnoticed. *)
Lemma unnoticed_mode_without_samples :
  _complexity_lempelziv log2_dyadic (samples []) (ThrStr "other") false
  = Return (PyInt 1).
Proof. vm_compute. reflexivity. Qed.

Lemma unknown_mode_witness :
  "other"%string ≠ "median"%string ∧ "other"%string ≠ "mean"%string ∧
  samples [3; 1] ≠ [] ∧
  _complexity_lempelziv log2_dyadic (samples [3; 1]) (ThrStr "other") true
    = Raise TypeError.
Proof.
  split; [done|]. split; [done|]. split; [done|].
  apply (unknown_mode (H := numpy) log2_dyadic (samples [3; 1]) "other"); done.
Defined.

(** Nothing in the code requires the threshold to be a string: a number
    is used as the threshold itself. *)
Example numeric_threshold :
  _complexity_lempelziv_binarize (samples [0; 2; 1; 3]) (ThrNum (Qc_of_Z 2))
  = Return [0; 1; 0; 1].
Proof. vm_compute. reflexivity. Qed.

(** C9 as stated fails: on [0, 4, 5] the mean is 3 and the median 4, and
    the two modes give the same binary sequence. *)
Lemma same_bits_distinct_thresholds :
  _complexity_lempelziv_binarize (samples [0; 4; 5]) (ThrStr "mean")
    = _complexity_lempelziv_binarize (samples [0; 4; 5]) (ThrStr "median") ∧
  np_mean (samples [0; 4; 5]) ≠ np_median (samples [0; 4; 5]).
Proof.
  split; [vm_compute; reflexivity|].
  intros Heq. apply (f_equal this) in Heq. vm_compute in Heq. discriminate.
Qed.


(** The mean of the counts 3 and 2 is the double 2.5. *)
Example two_channels_mean :
  complexity_lempelziv log2_dyadic np_mean_results (λ raw, Return raw)
    (MultiDim two_channels) (ThrStr "median") false
  = Return (PyFloat 2.5%float,
            mkParameters (ThrStr "median") false (Some [PyInt 3; PyInt 2])).
Proof. vm_compute. reflexivity. Qed.

(** With a repeated label and no rows there is nothing to compare: each
    label gives the count of an empty signal. *)
Example repeated_label_without_rows :
  complexity_lempelziv log2_dyadic np_mean_results (λ raw, Return raw)
    (MultiDim [("a"%string, samples []); ("a"%string, samples [])])
    (ThrStr "median") false
  = Return (PyFloat 1%float,
            mkParameters (ThrStr "median") false (Some [PyInt 1; PyInt 1])).
Proof. vm_compute. reflexivity. Qed.


End ExactScenarios.

(** * Further properties of the code *)

(** ** The states of the scan *)

(** The three things a pass can do, as equations on the state. *)
Lemma scan_pass_shape (p_seq : list Z) (st st' : ScanState) :
  scan_body p_seq st = Return st' →
  st' = mkScan (complexity st) (pointer st) (current_prefix_len st)
          (current_substring_len st + 1) (final_substring_len st) ∨
  (pointer st + 1 = current_prefix_len st ∧
   st' = mkScan (complexity st + 1) 0
           (current_prefix_len st
            + Z.max (current_substring_len st) (final_substring_len st)) 1 1) ∨
  (pointer st + 1 ≠ current_prefix_len st ∧
   st' = mkScan (complexity st) (pointer st + 1) (current_prefix_len st) 1
           (Z.max (current_substring_len st) (final_substring_len st))).
Proof.
  unfold scan_body, mbind, outcome_bind.
  destruct (np_getitem p_seq (pointer st + _ - 1)) as [a| |]; try done.
  destruct (np_getitem p_seq (current_prefix_len st + _ - 1)) as [b| |];
    try done.
  destruct (a =? b).
  - intros [= <-]. by left.
  - cbv zeta.
    destruct (Z.eqb_spec (pointer st + 1) (current_prefix_len st));
      intros [= <-]; [right; left|right; right]; done.
Qed.

Lemma loop_head_range (p_seq : list Z) (st : ScanState) :
  loop_head p_seq st → scan_range_inv (Z.of_nat (length p_seq)) st.
Proof.
  induction 1 as [|st st' Hhead IH Hcond Hbody].
  - unfold scan_range_inv, scan_init; simpl. lia.
  - pose proof (loop_head_inv p_seq st Hhead) as (Hc & Hp & Hs & Hf).
    unfold scan_cond in Hcond. apply Z.leb_le in Hcond.
    destruct IH as (Hfl & Hone & Hle & Hn).
    unfold scan_range_inv.
    destruct (scan_pass_shape p_seq st st' Hbody) as [->|[[Hreset ->]|[Hretry ->]]];
      simpl; lia.
Qed.

(** A state at the head of the loop that fails the loop condition is the
    state the scan ends in. *)
Lemma loop_head_run (p_seq : list Z) (st : ScanState) :
  loop_head p_seq st →
  ∀ fuel r,
    while_loop (scan_cond (Z.of_nat (length p_seq))) (scan_body p_seq) fuel st
      = Return r →
    ∃ fuel',
      while_loop (scan_cond (Z.of_nat (length p_seq))) (scan_body p_seq) fuel'
        scan_init = Return r.
Proof.
  induction 1 as [|st st' Hhead IH Hcond Hbody]; intros fuel r Hrun.
  - by exists fuel.
  - apply (IH (Datatypes.S fuel)). simpl. by rewrite Hcond, Hbody.
Qed.

Lemma loop_head_exit (p_seq : list Z) (st : ScanState) :
  loop_head p_seq st →
  scan_cond (Z.of_nat (length p_seq)) st = false →
  lz_scan p_seq = Return (scan_finish st).
Proof.
  intros Hhead Hexit.
  destruct (loop_head_run p_seq st Hhead 1 st) as (fuel & Hrun).
  { simpl. by rewrite Hexit. }
  destruct (scan_loop_result p_seq) as (st0 & Hrun0 & _).
  pose proof (while_loop_more_fuel _ _ _ (scan_budget p_seq) _ _ Hrun) as Hst.
  pose proof (while_loop_more_fuel _ _ _ fuel _ _ Hrun0) as Hst0.
  rewrite Nat.add_comm, Hst in Hst0. injection Hst0 as ->.
  unfold lz_scan, lz_scan_fuel. by rewrite Hrun0.
Qed.

(** The state the scan ends in. *)
Lemma scan_exit (p_seq : list Z) :
  ∃ st, lz_scan p_seq = Return (scan_finish st) ∧
        loop_head p_seq st ∧
        scan_cond (Z.of_nat (length p_seq)) st = false.
Proof.
  destruct (scan_loop_result p_seq) as (st & Hrun & _ & Hexit & _ & Hhead).
  exists st. repeat split; try done.
  by apply loop_head_exit.
Qed.

(** The count of a sequence of length [n >= 1] is at most [n], and at
    least 2 from length 2 on. *)
Lemma lz_scan_range (p_seq : list Z) :
  ∃ c, lz_scan p_seq = Return c ∧
       1 <= c ∧
       ((1 ≤ length p_seq)%nat → c <= Z.of_nat (length p_seq)) ∧
       ((2 ≤ length p_seq)%nat → 2 <= c).
Proof.
  destruct (scan_exit p_seq) as (st & Hrun & Hhead & Hexit).
  exists (scan_finish st). split; [done|].
  pose proof (loop_head_inv p_seq st Hhead) as (Hc & Hp & Hs & Hf).
  destruct (loop_head_range p_seq st Hhead) as (Hfl & Hone & Hle & Hn).
  unfold scan_cond in Hexit. apply Z.leb_gt in Hexit.
  unfold scan_finish.
  destruct (Z.eqb_spec (current_substring_len st) 1); repeat split; intros; lia.
Qed.

(** ** The scan and the symbols *)

Lemma np_getitem_fmap (f : Z → Z) (a : list Z) (i : Z) :
  np_getitem (f <$> a) i
  = match np_getitem a i with
    | Return x => Return (f x)
    | Raise e => Raise e
    | OutOfFuel => OutOfFuel
    end.
Proof.
  unfold np_getitem. rewrite length_fmap.
  destruct (_ && _); [|done].
  rewrite list_lookup_fmap. by destruct (a !! _).
Qed.

Lemma while_loop_ext {S : Type} (cond : S → bool) (body body' : S → outcome S) :
  (∀ s, body s = body' s) →
  ∀ fuel s, while_loop cond body fuel s = while_loop cond body' fuel s.
Proof.
  intros Hbody. induction fuel as [|fuel IH]; intros s; simpl; [done|].
  destruct (cond s); [|done]. rewrite Hbody.
  destruct (body' s); simpl; [apply IH|done|done].
Qed.

(** The scan only compares symbols with each other: renaming them
    one-to-one (exchanging 0 and 1, for instance) changes nothing. *)
Theorem lz_scan_relabel (f : Z → Z) (p_seq : list Z) :
  (∀ x y, f x = f y → x = y) →
  lz_scan (f <$> p_seq) = lz_scan p_seq.
Proof.
  intros Hinj.
  assert (Hbody : ∀ st, scan_body (f <$> p_seq) st = scan_body p_seq st).
  { intros st. unfold scan_body. rewrite !np_getitem_fmap.
    destruct (np_getitem p_seq (pointer st + _ - 1)) as [a| |]; try done.
    destruct (np_getitem p_seq (current_prefix_len st + _ - 1)) as [b| |];
      try done.
    simpl.
    destruct (Z.eqb_spec a b) as [->|Hab].
    - by rewrite Z.eqb_refl.
    - destruct (Z.eqb_spec (f a) (f b)) as [Hf|Hf]; [|done].
      by apply Hinj in Hf. }
  unfold lz_scan, lz_scan_fuel, scan_budget. rewrite !length_fmap.
  by rewrite (while_loop_ext _ _ _ Hbody).
Qed.

Lemma lz_scan_relabel_witness :
  (∀ x y : Z, 1 - x = 1 - y → x = y) ∧
  lz_scan ((λ x, 1 - x) <$> [0; 0; 1; 0; 1; 1]) = lz_scan [0; 0; 1; 0; 1; 1].
Proof.
  assert (Hinj : ∀ x y : Z, 1 - x = 1 - y → x = y) by (intros x y; lia).
  split; [exact Hinj|].
  exact (lz_scan_relabel (λ x, 1 - x) [0; 0; 1; 0; 1; 1] Hinj).
Defined.

(** ** The scan of a longer sequence *)

Lemma np_getitem_app_l (p q : list Z) (i : Z) :
  0 <= i < Z.of_nat (length p) →
  np_getitem (p ++ q) i = np_getitem p i.
Proof.
  intros Hi.
  destruct (np_getitem_in_range p i Hi) as (x & Hx & ->).
  destruct (np_getitem_in_range (p ++ q) i) as (y & Hy & ->).
  { rewrite length_app. lia. }
  rewrite lookup_app_l in Hy by lia. congruence.
Qed.

(** While the loop condition holds for the shorter sequence, a pass reads
    the same cells in the longer one. *)
Lemma scan_body_app (p q : list Z) (st : ScanState) :
  scan_inv st →
  scan_cond (Z.of_nat (length p)) st = true →
  scan_body (p ++ q) st = scan_body p st.
Proof.
  intros (_ & Hp & Hs & _) Hcond.
  unfold scan_cond in Hcond. apply Z.leb_le in Hcond.
  unfold scan_body. by rewrite !np_getitem_app_l by lia.
Qed.

Lemma scan_potential_pass (p_seq : list Z) (st st' : ScanState) :
  scan_inv st →
  scan_body p_seq st = Return st' →
  scan_potential st <= scan_potential st'.
Proof.
  intros (_ & _ & Hs & Hf) Hbody. unfold scan_potential.
  destruct (scan_pass_shape p_seq st st' Hbody) as [->|[[_ ->]|[_ ->]]];
    simpl; repeat case_decide; lia.
Qed.

(** When the loop is left, the potential is the count. *)
Lemma scan_potential_exit (p_seq : list Z) (st : ScanState) :
  loop_head p_seq st →
  scan_cond (Z.of_nat (length p_seq)) st = false →
  scan_finish st = scan_potential st.
Proof.
  intros Hhead Hexit.
  pose proof (loop_head_inv p_seq st Hhead) as (_ & _ & Hs & Hf).
  destruct (loop_head_range p_seq st Hhead) as (Hfl & _).
  unfold scan_cond in Hexit. apply Z.leb_gt in Hexit.
  unfold scan_finish, scan_potential.
  destruct (Z.eqb_spec (current_substring_len st) 1); case_decide; lia.
Qed.

(** During the scan of [p ++ q], either the scan of [p] is still under
    way, or the potential has reached the count of [p]. *)
Lemma loop_head_app (p q : list Z) (st : ScanState) :
  loop_head (p ++ q) st →
  (scan_cond (Z.of_nat (length p)) st = true ∧ loop_head p st) ∨
  (∃ s, loop_head p s ∧ scan_cond (Z.of_nat (length p)) s = false ∧
        scan_potential s <= scan_potential st).
Proof.
  induction 1 as [|st st' Hhead IH Hcond Hbody].
  - destruct (scan_cond (Z.of_nat (length p)) scan_init) eqn:Hc.
    + left. split; [done|apply head_init].
    + right. exists scan_init. split; [apply head_init|]. split; [done|lia].
  - pose proof (loop_head_inv (p ++ q) st Hhead) as Hinv.
    destruct IH as [[Hc Hp]|(s & Hs & Hexit & Hle)].
    + rewrite (scan_body_app p q st Hinv Hc) in Hbody.
      assert (Hp' : loop_head p st') by by eapply head_pass.
      destruct (scan_cond (Z.of_nat (length p)) st') eqn:Hc'.
      * by left.
      * right. exists st'. split; [done|]. split; [done|lia].
    + right. exists s. split; [done|]. split; [done|].
      pose proof (scan_potential_pass (p ++ q) st st' Hinv Hbody). lia.
Qed.

(** Extending a sequence never lowers its count. *)
Theorem lz_scan_extension (p q : list Z) :
  ∃ c c', lz_scan p = Return c ∧ lz_scan (p ++ q) = Return c' ∧ c <= c'.
Proof.
  destruct (scan_exit (p ++ q)) as (st & Hrun & Hhead & Hexit).
  destruct (loop_head_app p q st Hhead) as [[Hc _]|(s & Hs & Hsexit & Hle)].
  - unfold scan_cond in *. rewrite length_app in Hexit.
    apply Z.leb_le in Hc. apply Z.leb_gt in Hexit. lia.
  - exists (scan_finish s), (scan_finish st).
    split; [by apply loop_head_exit|]. split; [done|].
    rewrite (scan_potential_exit p s Hs Hsexit).
    by rewrite (scan_potential_exit (p ++ q) st Hhead Hexit).
Qed.

(** ** The single-sequence path with a usable threshold *)

Section SequenceFacts.
Context `{NumPy}.
Variable np_log2 : Z → float.

(** The two modes and a number all resolve to a numeric threshold. *)
Lemma resolve_usable (signal : list num) (threshold : threshold_arg) :
  threshold = ThrStr "median" ∨ threshold = ThrStr "mean" ∨
    (∃ x, threshold = ThrNum x) →
  ∃ t, resolve_threshold signal threshold = ThrNum t.
Proof. intros [->|[->|[x ->]]]; eexists; reflexivity. Qed.

(** With the mode "median" or "mean", or a number as threshold, the
    binarizer never raises: it returns a sequence as long as the signal,
    made of 0s and 1s, whose bit at each index is 0 exactly when the
    sample at that index is below the threshold. *)
Theorem binarize_bits (signal : list num) (threshold : threshold_arg) :
  threshold = ThrStr "median" ∨ threshold = ThrStr "mean" ∨
    (∃ x, threshold = ThrNum x) →
  ∃ t p_seq,
    resolve_threshold signal threshold = ThrNum t ∧
    _complexity_lempelziv_binarize signal threshold = Return p_seq ∧
    length p_seq = length signal ∧
    Forall (λ b, b = 0 ∨ b = 1) p_seq ∧
    ∀ (i : nat) (v : num),
      signal !! i = Some v →
      p_seq !! i = Some (if num_lt v t then 0 else 1).
Proof.
  intros Hthr. destruct (resolve_usable signal threshold Hthr) as (t & Ht).
  exists t, (map (threshold_bit t) signal).
  split; [done|]. split; [by apply binarize_numeric|].
  split; [by rewrite length_map|]. split.
  - apply Forall_forall. intros b Hb.
    apply list_elem_of_fmap in Hb as (v & -> & _).
    unfold threshold_bit. destruct (num_lt v t); lia.
  - intros i v Hv.
    change (map (threshold_bit t) signal) with (threshold_bit t <$> signal).
    by rewrite list_lookup_fmap, Hv.
Qed.

(** With a usable threshold the computation never raises, and its count
    lies between 1 and the length of the signal, and is at least 2 as
    soon as there are two samples (an empty signal still gives 1). *)
Theorem raw_count_range (signal : list num) (threshold : threshold_arg) :
  threshold = ThrStr "median" ∨ threshold = ThrStr "mean" ∨
    (∃ x, threshold = ThrNum x) →
  ∃ c, _complexity_lempelziv np_log2 signal threshold false = Return (PyInt c) ∧
       1 <= c ∧
       ((1 ≤ length signal)%nat → c <= Z.of_nat (length signal)) ∧
       ((2 ≤ length signal)%nat → 2 <= c).
Proof.
  intros Hthr. destruct (resolve_usable signal threshold Hthr) as (t & Ht).
  rewrite (raw_count_numeric np_log2 signal threshold t Ht).
  destruct (lz_scan_range (map (threshold_bit t) signal))
    as (c & -> & Hpos & Hupper & Hlower).
  rewrite length_map in Hupper, Hlower.
  exists c. simpl. done.
Qed.

(** A signal that lies entirely on one side of its threshold has the
    count of a constant sequence: 2 from two samples on, 1 below. *)
Theorem one_sided_signal (signal : list num) (threshold : threshold_arg)
    (t : num) (below : bool) :
  resolve_threshold signal threshold = ThrNum t →
  Forall (λ v, num_lt v t = below) signal →
  _complexity_lempelziv_binarize signal threshold
    = Return (replicate (length signal) (if below then 0 else 1)) ∧
  _complexity_lempelziv np_log2 signal threshold false
    = Return (PyInt (if decide (2 ≤ length signal)%nat then 2 else 1)).
Proof.
  intros Ht Hside.
  assert (Hbits : map (threshold_bit t) signal
                  = replicate (length signal) (if below then 0 else 1)).
  { clear Ht. induction Hside as [|v l Hv _ IH]; [done|].
    simpl. unfold threshold_bit at 1. by rewrite Hv, IH. }
  rewrite (binarize_numeric signal threshold t Ht).
  rewrite (raw_count_numeric np_log2 signal threshold t Ht).
  by rewrite Hbits, lz_scan_constant.
Qed.

End SequenceFacts.

(** ** The channels of the wrapper *)

Lemma for_loop_app {A S : Type} (body : S → A → outcome S) (l1 l2 : list A)
    (s : S) :
  for_loop body (l1 ++ l2) s = s' ← for_loop body l1 s; for_loop body l2 s'.
Proof.
  revert s. induction l1 as [|x l1 IH]; intros s; simpl; [done|].
  destruct (body s x); simpl; [apply IH|done|done].
Qed.

Section ChannelFacts.
Context `{NumPy}.
Variable np_log2 : Z → float.
Variable np_mean_values : list pyval → pyval.
Context {ndsignal : Type}.
Variable _sanitize_multichannel : ndsignal → outcome dataframe.

Lemma column_body_unfold (threshold : threshold_arg) (normalize : bool)
    (lzc_values : list pyval) (channel : list num) :
  column_body np_log2 threshold normalize lzc_values channel
  = lzc ← _complexity_lempelziv np_log2 channel threshold normalize;
    Return (lzc_values ++ [lzc]).
Proof. reflexivity. Qed.

(** Under pairwise distinct labels the loop over the labels is the loop
    over the columns. *)
Lemma channel_loop_columns (signal : dataframe) (threshold : threshold_arg)
    (normalize : bool) (cols : list (string * list num)) :
  NoDup (map fst signal) →
  cols ⊆ signal →
  ∀ lzc_values,
    for_loop (channel_body np_log2 signal threshold normalize) (map fst cols)
      lzc_values
    = for_loop (column_body np_log2 threshold normalize) (map snd cols)
        lzc_values.
Proof.
  intros Hnodup. induction cols as [|col cols IH]; intros Hsub acc; [done|].
  cbn [map for_loop].
  rewrite (channel_body_own_column np_log2 signal threshold normalize acc col Hnodup)
    by (apply Hsub, elem_of_cons; by left).
  rewrite column_body_unfold.
  destruct (_complexity_lempelziv np_log2 col.2 threshold normalize);
    simpl; try done.
  apply IH. intros c Hc. apply Hsub, elem_of_cons. by right.
Qed.

Lemma wrapper_columns (raw : ndsignal) (signal : dataframe)
    (threshold : threshold_arg) (normalize : bool) :
  _sanitize_multichannel raw = Return signal →
  NoDup (map fst signal) →
  complexity_lempelziv np_log2 np_mean_values _sanitize_multichannel
    (MultiDim raw) threshold normalize
  = lzc_values ← for_loop (column_body np_log2 threshold normalize)
                   (map snd signal) [];
    Return (np_mean_values lzc_values,
            mkParameters threshold normalize (Some lzc_values)).
Proof.
  intros Hsan Hnodup. unfold complexity_lempelziv. rewrite Hsan. simpl.
  by rewrite (channel_loop_columns signal threshold normalize signal Hnodup).
Qed.

(** The loop over the columns appends the results it gets, in order. *)
Lemma column_loop_returns (threshold : threshold_arg) (normalize : bool)
    (channels : list (list num)) :
  ∀ (lzc_values results : list pyval),
    Forall2 (λ ch v, _complexity_lempelziv np_log2 ch threshold normalize
                     = Return v) channels results →
    for_loop (column_body np_log2 threshold normalize) channels lzc_values
    = Return (lzc_values ++ results).
Proof.
  induction channels as [|ch channels IH]; intros acc results Hall.
  - inversion Hall; subst. simpl. by rewrite app_nil_r.
  - inversion Hall as [|? v ? rest Hch Hrest]; subst.
    cbn [for_loop]. rewrite column_body_unfold, Hch. simpl.
    rewrite (IH _ rest Hrest). by rewrite <- app_assoc.
Qed.

Lemma column_loop_inv (threshold : threshold_arg) (normalize : bool)
    (channels : list (list num)) :
  ∀ (lzc_values out : list pyval),
    for_loop (column_body np_log2 threshold normalize) channels lzc_values
      = Return out →
    ∃ results,
      out = lzc_values ++ results ∧
      Forall2 (λ ch v, _complexity_lempelziv np_log2 ch threshold normalize
                       = Return v) channels results.
Proof.
  induction channels as [|ch channels IH]; intros acc out Hrun.
  - simpl in Hrun. injection Hrun as <-. exists []. by rewrite app_nil_r.
  - cbn [for_loop] in Hrun. rewrite column_body_unfold in Hrun.
    destruct (_complexity_lempelziv np_log2 ch threshold normalize)
      as [v| |] eqn:Hch; simpl in Hrun; try done.
    destruct (IH _ _ Hrun) as (rest & -> & Hrest).
    exists (v :: rest). split; [by rewrite <- app_assoc|by constructor].
Qed.

(** The labels of the channels play no part in the result: two frames
    with the same columns in the same order, each under pairwise distinct
    labels, give the same outcome, error included. *)
Theorem labels_irrelevant (raw raw' : ndsignal) (signal signal' : dataframe)
    (threshold : threshold_arg) (normalize : bool) :
  _sanitize_multichannel raw = Return signal →
  _sanitize_multichannel raw' = Return signal' →
  NoDup (map fst signal) →
  NoDup (map fst signal') →
  map snd signal = map snd signal' →
  complexity_lempelziv np_log2 np_mean_values _sanitize_multichannel
    (MultiDim raw) threshold normalize
  = complexity_lempelziv np_log2 np_mean_values _sanitize_multichannel
      (MultiDim raw') threshold normalize.
Proof.
  intros Hsan Hsan' Hnodup Hnodup' Hcols.
  rewrite (wrapper_columns raw signal threshold normalize Hsan Hnodup).
  rewrite (wrapper_columns raw' signal' threshold normalize Hsan' Hnodup').
  by rewrite Hcols.
Qed.

(** The first channel on which the single-sequence path raises stops the
    whole computation with that exception: neither a mean nor a partial
    list of values comes back. *)
Theorem first_failing_channel (raw : ndsignal) (signal : dataframe)
    (threshold : threshold_arg) (normalize : bool)
    (before after : list (string * list num)) (col : string * list num)
    (results : list pyval) (e : exn) :
  _sanitize_multichannel raw = Return signal →
  NoDup (map fst signal) →
  signal = before ++ col :: after →
  Forall2 (channel_result np_log2 threshold normalize) before results →
  _complexity_lempelziv np_log2 col.2 threshold normalize = Raise e →
  complexity_lempelziv np_log2 np_mean_values _sanitize_multichannel
    (MultiDim raw) threshold normalize = Raise e.
Proof.
  intros Hsan Hnodup Hsplit Hbefore Hcol.
  rewrite (wrapper_columns raw signal threshold normalize Hsan Hnodup).
  rewrite Hsplit, map_app, for_loop_app.
  rewrite (column_loop_returns threshold normalize (map snd before) [] results).
  - cbn [mbind outcome_bind map for_loop app].
    by rewrite column_body_unfold, Hcol.
  - clear -Hbefore. induction Hbefore; simpl; by constructor.
Qed.

(** Reordering the channels of a frame on which the computation returns
    reorders the recorded values in the same way and does nothing else:
    the reordered computation returns too, with the values of its
    channels in its own order. *)
Theorem channels_reordered (raw raw' : ndsignal) (signal signal' : dataframe)
    (threshold : threshold_arg) (normalize : bool)
    (out : pyval) (params : parameters) :
  _sanitize_multichannel raw = Return signal →
  _sanitize_multichannel raw' = Return signal' →
  NoDup (map fst signal) →
  signal' ≡ₚ signal →
  complexity_lempelziv np_log2 np_mean_values _sanitize_multichannel
    (MultiDim raw) threshold normalize = Return (out, params) →
  ∃ results results',
    param_values params = Some results ∧
    complexity_lempelziv np_log2 np_mean_values _sanitize_multichannel
      (MultiDim raw') threshold normalize
    = Return (np_mean_values results',
              mkParameters threshold normalize (Some results')) ∧
    Forall2 (channel_result np_log2 threshold normalize) signal' results' ∧
    zip signal' results' ≡ₚ zip signal results.
Proof.
  intros Hsan Hsan' Hnodup Hperm Hrun.
  assert (Hnodup' : NoDup (map fst signal')).
  { assert (Hlabels : fst <$> signal' ≡ₚ fst <$> signal)
      by by apply fmap_Permutation.
    change (NoDup (fst <$> signal')). by rewrite Hlabels. }
  rewrite (wrapper_columns raw signal threshold normalize Hsan Hnodup) in Hrun.
  destruct (for_loop _ _ _) as [values| |] eqn:Hloop; simpl in Hrun; try done.
  injection Hrun as <- <-.
  destruct (column_loop_inv threshold normalize _ _ _ Hloop)
    as (results & -> & Hall).
  set (value_of (col : string * list num) :=
         match _complexity_lempelziv np_log2 col.2 threshold normalize with
         | Return v => v
         | _ => PyInt 0
         end).
  assert (Hvalues : ∀ cols rs,
            Forall2 (λ ch v, _complexity_lempelziv np_log2 ch threshold normalize
                             = Return v) (map snd cols) rs →
            rs = map value_of cols ∧
            Forall (λ col, _complexity_lempelziv np_log2 col.2 threshold normalize
                           = Return (value_of col)) cols).
  { induction cols as [|c cols IH]; intros rs Hrs; inversion Hrs; subst.
    - by split.
    - destruct (IH _ ltac:(eassumption)) as [-> Hcols].
      assert (Hc : _complexity_lempelziv np_log2 c.2 threshold normalize
                   = Return (value_of c)).
      { unfold value_of. by rewrite H2. }
      split; [|by constructor].
      simpl. f_equal. unfold value_of. by rewrite H2. }
  destruct (Hvalues signal results Hall) as [-> Hsignal].
  assert (Hsignal' : Forall (λ col, _complexity_lempelziv np_log2 col.2
                                      threshold normalize
                                    = Return (value_of col)) signal').
  { by rewrite Hperm. }
  exists (map value_of signal), (map value_of signal').
  split; [done|]. split; [|split].
  - rewrite (wrapper_columns raw' signal' threshold normalize Hsan' Hnodup').
    rewrite (column_loop_returns threshold normalize (map snd signal') []
               (map value_of signal')); [done|].
    clear -Hsignal'. induction Hsignal'; simpl; by constructor.
  - clear -Hsignal'. induction Hsignal'; simpl; by constructor.
  - assert (Hzip : ∀ cols, zip cols (map value_of cols)
                           = map (λ col, (col, value_of col)) cols).
    { induction cols as [|c cols IH]; simpl; [done|by rewrite IH]. }
    rewrite !Hzip. by apply fmap_Permutation.
Qed.

End ChannelFacts.

(** ** Instances in exact arithmetic *)

Section ExactInstances.
Import Exact.

Lemma binarize_bits_witness :
  ∃ t p_seq,
    resolve_threshold (samples [3; 1; 4; 1; 5]) (ThrStr "mean") = ThrNum t ∧
    _complexity_lempelziv_binarize (samples [3; 1; 4; 1; 5]) (ThrStr "mean")
      = Return p_seq ∧
    length p_seq = length (samples [3; 1; 4; 1; 5]) ∧
    Forall (λ b, b = 0 ∨ b = 1) p_seq ∧
    ∀ (i : nat) (v : Qc),
      samples [3; 1; 4; 1; 5] !! i = Some v →
      p_seq !! i = Some (if Qc_ltb v t then 0 else 1).
Proof.
  apply (binarize_bits (H := numpy) (samples [3; 1; 4; 1; 5]) (ThrStr "mean")).
  right. by left.
Defined.

Lemma raw_count_range_witness :
  ∃ c, _complexity_lempelziv log2_dyadic (samples [3; 1; 4; 1; 5])
         (ThrNum (Qc_of_Z 2)) false = Return (PyInt c) ∧
       1 <= c ∧
       ((1 ≤ 5)%nat → c <= 5) ∧
       ((2 ≤ 5)%nat → 2 <= c).
Proof.
  apply (raw_count_range (H := numpy) log2_dyadic (samples [3; 1; 4; 1; 5])
           (ThrNum (H := numpy) (Qc_of_Z 2))).
  right. right. by eexists.
Defined.

Lemma one_sided_signal_witness :
  Forall (λ v, Qc_ltb v (Qc_of_Z 9) = true) (samples [3; 1; 4]) ∧
  _complexity_lempelziv log2_dyadic (samples [3; 1; 4]) (ThrNum (Qc_of_Z 9)) false
    = Return (PyInt 2).
Proof.
  assert (Hside : Forall (λ v, Qc_ltb v (Qc_of_Z 9) = true) (samples [3; 1; 4]))
    by (repeat constructor).
  split; [exact Hside|].
  exact (proj2 (one_sided_signal (H := numpy) log2_dyadic (samples [3; 1; 4])
                  (ThrNum (H := numpy) (Qc_of_Z 9)) (Qc_of_Z 9) true eq_refl
                  Hside)).
Defined.

Lemma labels_irrelevant_witness :
  NoDup (map fst two_channels) ∧
  NoDup (map fst [("Fp1"%string, samples [1; 2; 1; 2]);
                  ("Fp2"%string, samples [1; 1; 1; 5; 0])]) ∧
  complexity_lempelziv log2_dyadic np_mean_results (λ raw, Return raw)
    (MultiDim two_channels) (ThrStr "median") false
  = complexity_lempelziv log2_dyadic np_mean_results (λ raw, Return raw)
      (MultiDim [("Fp1"%string, samples [1; 2; 1; 2]);
                 ("Fp2"%string, samples [1; 1; 1; 5; 0])])
      (ThrStr "median") false.
Proof.
  assert (Hlabels : NoDup (map fst two_channels))
    by (apply (bool_decide_unpack _); vm_compute; reflexivity).
  assert (Hlabels' : NoDup (map fst [("Fp1"%string, samples [1; 2; 1; 2]);
                                     ("Fp2"%string, samples [1; 1; 1; 5; 0])]))
    by (apply (bool_decide_unpack _); vm_compute; reflexivity).
  split; [exact Hlabels|]. split; [exact Hlabels'|].
  exact (labels_irrelevant (H := numpy) log2_dyadic np_mean_results (λ raw, Return raw)
           two_channels _ two_channels _ (ThrStr "median") false
           eq_refl eq_refl Hlabels Hlabels' eq_refl).
Defined.

(** With an unknown mode, a channel without samples goes through and the
    next one raises. *)
Lemma first_failing_channel_witness :
  NoDup (map fst [("a"%string, samples []); ("b"%string, samples [3; 1])]) ∧
  _complexity_lempelziv log2_dyadic (samples [3; 1]) (ThrStr "other") false
    = Raise TypeError ∧
  complexity_lempelziv log2_dyadic np_mean_results (λ raw, Return raw)
    (MultiDim [("a"%string, samples []); ("b"%string, samples [3; 1])])
    (ThrStr "other") false
  = Raise TypeError.
Proof.
  assert (Hlabels : NoDup (map fst [("a"%string, samples []);
                                    ("b"%string, samples [3; 1])]))
    by (apply (bool_decide_unpack _); vm_compute; reflexivity).
  split; [exact Hlabels|]. split; [reflexivity|].
  apply (first_failing_channel (H := numpy) log2_dyadic np_mean_results
           (λ raw, Return raw)
           [("a"%string, samples []); ("b"%string, samples [3; 1])]
           [("a"%string, samples []); ("b"%string, samples [3; 1])]
           (ThrStr "other") false
           [("a"%string, samples [])] [] ("b"%string, samples [3; 1])
           [PyInt 1] TypeError eq_refl Hlabels eq_refl).
  - repeat constructor.
  - reflexivity.
Defined.

Lemma channels_reordered_witness :
  NoDup (map fst two_channels) ∧
  reverse two_channels ≡ₚ two_channels ∧
  ∃ results results',
    Some [PyInt 3; PyInt 2] = Some results ∧
    complexity_lempelziv log2_dyadic np_mean_results (λ raw, Return raw)
      (MultiDim (reverse two_channels)) (ThrStr "median") false
    = Return (np_mean_results results',
              mkParameters (ThrStr "median") false (Some results')) ∧
    Forall2 (channel_result log2_dyadic (ThrStr "median") false)
      (reverse two_channels) results' ∧
    zip (reverse two_channels) results' ≡ₚ zip two_channels results.
Proof.
  assert (Hlabels : NoDup (map fst two_channels))
    by (apply (bool_decide_unpack _); vm_compute; reflexivity).
  assert (Hperm : reverse two_channels ≡ₚ two_channels)
    by apply reverse_Permutation.
  split; [exact Hlabels|]. split; [exact Hperm|].
  exact (channels_reordered (H := numpy) log2_dyadic np_mean_results
           (λ raw, Return raw) two_channels (reverse two_channels)
           two_channels (reverse two_channels) (ThrStr "median") false
           (PyFloat 2.5%float)
           (mkParameters (ThrStr "median") false (Some [PyInt 3; PyInt 2]))
           eq_refl eq_refl Hlabels Hperm eq_refl).
Defined.

End ExactInstances.
